(** * Diagram builder system: a shallow embedding of [main.cpp]

    The program wires five patterns together (Proxy, Flyweight, Builder,
    Singleton, Factory).  Every method only prints to [cout], mutates one
    of three function-local statics, or allocates a flyweight with
    [make_shared].  The embedding keeps exactly that: a world holding the
    three statics, the objects allocated so far, the characters written to
    [cout], and (as ghost state) the list of method bodies entered. *)

From stdpp Require Import base option strings list gmap.

(** ** Strings *)

(** The line feed written by ["\n"] and by [endl]. *)
Definition nl : string := String (Ascii.ascii_of_nat 10) EmptyString.

(** [std::string::find(pat)] from position 0: the index of the first
    occurrence of [pat], [None] standing for [string::npos]. *)
Fixpoint string_find (s pat : string) : option nat :=
  if String.prefix pat s then Some 0
  else match s with
       | EmptyString => None
       | String _ s' => S <$> string_find s' pat
       end.

(** ** Objects *)

(** [DrawGraph] has no data member. *)
Inductive DrawGraph : Type := mkDrawGraph.

(** The two concrete classes below [FlyweightFigure]; the argument is the
    protected member [type] set by the base-class constructor. *)
Inductive FlyweightFigure : Type :=
  | ColoredFigure (t : string)
  | BWFigure (t : string).

(** A [shared_ptr<FlyweightFigure>]: [None] is the null pointer, [Some a]
    points to the [a]-th object allocated by [make_shared]. *)
Abbreviation shared_ptr := (option nat).

Record FlyweightFactory : Type := mkFlyweightFactory {
  pool : gmap string shared_ptr
}.

Record BarBuilder : Type := mkBarBuilder {
  BarBuilder_coord : string;
  BarBuilder_proxy : DrawGraph
}.

Record LineBuilder : Type := mkLineBuilder {
  LineBuilder_coord : string;
  LineBuilder_proxy : DrawGraph
}.

(** A [Builder*]: the only [Builder] objects that can exist are the two
    statics, since both constructors are private. *)
Inductive BuilderPtr : Type := BarPtr | LinePtr.

(** [Director::builder]; [None] is the indeterminate pointer of a
    default-constructed [Director]. *)
Record Director : Type := mkDirector {
  Director_builder : option BuilderPtr
}.

Inductive GraphFactory : Type := mkGraphFactory.

Record FigureFactory : Type := mkFigureFactory {
  flyFactory : FlyweightFactory
}.

Record DiagramFactory : Type := mkDiagramFactory {
  graphFactory : GraphFactory
}.

(** ** Ghost trace of the method bodies entered *)

Inductive DiagramStep : Type := DoCalc | DoDraw | DoDrag.

Inductive BuilderStep : Type :=
  | SetCoord (c : string)
  | Calc
  | Draw
  | Drag.

Inductive Invocation : Type :=
  | OnGraph (m : DiagramStep)
  | OnFigure (m : DiagramStep)
  | OnDrawGraph
  | OnFlyweight (o : FlyweightFigure)
  | OnBuilder (b : BuilderPtr) (m : BuilderStep).

(** ** The world *)

Record World : Type := mkWorld {
  bar_instance : option BarBuilder;       (* static in BarBuilder::getInstance *)
  line_instance : option LineBuilder;     (* static in LineBuilder::getInstance *)
  figure_instance : option FigureFactory; (* static in FigureFactory::getInstance *)
  heap : list FlyweightFigure;            (* objects made by make_shared *)
  cout : string;                          (* characters written so far *)
  calls : list Invocation                 (* ghost: bodies entered so far *)
}.

(** Process start: no static constructed, nothing allocated or printed. *)
Definition init : World := mkWorld None None None [] EmptyString [].

Definition set_bar (b : option BarBuilder) (w : World) : World :=
  mkWorld b (line_instance w) (figure_instance w) (heap w) (cout w) (calls w).
Definition set_line (l : option LineBuilder) (w : World) : World :=
  mkWorld (bar_instance w) l (figure_instance w) (heap w) (cout w) (calls w).
Definition set_figure (f : option FigureFactory) (w : World) : World :=
  mkWorld (bar_instance w) (line_instance w) f (heap w) (cout w) (calls w).
Definition set_heap (h : list FlyweightFigure) (w : World) : World :=
  mkWorld (bar_instance w) (line_instance w) (figure_instance w) h (cout w) (calls w).
Definition set_cout (s : string) (w : World) : World :=
  mkWorld (bar_instance w) (line_instance w) (figure_instance w) (heap w) s (calls w).
Definition set_calls (c : list Invocation) (w : World) : World :=
  mkWorld (bar_instance w) (line_instance w) (figure_instance w) (heap w) (cout w) c.

(** ** The monad: world passing, [None] for undefined behaviour *)

Definition M (A : Type) : Type := World → option (A * World).

Definition ret {A} (a : A) : M A := λ w, Some (a, w).
Definition bind {A B} (m : M A) (k : A → M B) : M B :=
  λ w, match m w with
       | Some (a, w') => k a w'
       | None => None
       end.
Definition undefined {A} : M A := λ _, None.

Declare Scope prog_scope.
Delimit Scope prog_scope with prog.
Bind Scope prog_scope with M.
Notation "'let*' x := m 'in' k" := (bind m (λ x, k))
  (at level 10, x pattern, m at level 100, k at level 200) : prog_scope.
Notation "m >> k" := (bind m (λ _, k))
  (at level 90, right associativity) : prog_scope.
Local Open Scope prog_scope.

(** [cout << s] *)
Definition print (s : string) : M unit :=
  λ w, Some (tt, set_cout (cout w +:+ s) w).

(** Ghost: record that a method body was entered. *)
Definition enter (c : Invocation) : M unit :=
  λ w, Some (tt, set_calls (calls w ++ [c]) w).

(** [make_shared<T>(...)]: the new object gets the next free address. *)
Definition make_shared (o : FlyweightFigure) : M shared_ptr :=
  λ w, Some (Some (length (heap w)), set_heap (heap w ++ [o]) w).

(** [*p] on a [shared_ptr]; null or dangling is undefined behaviour. *)
Definition deref (p : shared_ptr) : M FlyweightFigure :=
  λ w, match p with
       | Some a => match heap w !! a with
                   | Some o => Some (o, w)
                   | None => None
                   end
       | None => None
       end.

(** ** Diagram, Graph, Figure (lines 9-32) *)

Definition Graph_calc : M unit :=
  enter (OnGraph DoCalc) >> print ("Calculating Graph" +:+ nl).
Definition Graph_draw : M unit :=
  enter (OnGraph DoDraw) >> print ("[Graph] Drawing graphical representation." +:+ nl).
Definition Graph_drag : M unit :=
  enter (OnGraph DoDrag) >> print ("Dragging Graph" +:+ nl).

Definition Figure_calc : M unit :=
  enter (OnFigure DoCalc) >> print ("Calculating Figure" +:+ nl).
Definition Figure_draw : M unit :=
  enter (OnFigure DoDraw) >> print ("[Figure Stub] Drawing textual stub." +:+ nl).
Definition Figure_drag : M unit :=
  enter (OnFigure DoDrag) >> print ("Dragging Figure" +:+ nl).

(** ** DrawProxy, DrawGraph (lines 36-46) *)

Definition proxy_message : string := "[Graph Proxy] Drawing graphical + textual stub".

Definition DrawGraph_draw (this : DrawGraph) : M unit :=
  enter OnDrawGraph >> print (proxy_message +:+ nl).

(** ** Flyweight figures (lines 50-74) *)

Definition ColoredFigure_draw (type : string) : M unit :=
  enter (OnFlyweight (ColoredFigure type)) >>
  print "[Colored Flyweight] Drawing colored figure of type: " >>
  print type >> print nl.

Definition BWFigure_draw (type : string) : M unit :=
  enter (OnFlyweight (BWFigure type)) >>
  print "[B/W Flyweight] Drawing black and white figure of type: " >>
  print type >> print nl.

(** [fig->draw()]: dereference, then dispatch on the dynamic class. *)
Definition FlyweightFigure_draw (fig : shared_ptr) : M unit :=
  let* o := deref fig in
  match o with
  | ColoredFigure t => ColoredFigure_draw t
  | BWFigure t => BWFigure_draw t
  end.

(** ** FlyweightFactory (lines 77-89) *)

(** [m[k]] read as an rvalue: [std::map::operator[]] inserts a
    value-initialised (null) pointer when the key is absent. *)
Definition map_subscript (m : gmap string shared_ptr) (k : string)
  : gmap string shared_ptr * shared_ptr :=
  match m !! k with
  | Some p => (m, p)
  | None => (<[k := None]> m, None)
  end.

(** In [pool[type] = make_shared<...>(type)] the subscript creates the
    binding and the assignment fills it: the key ends up bound to the new
    pointer.  The [return pool[type]] is a subscript of its own. *)
Definition FlyweightFactory_getFigure (this : FlyweightFactory) (type : string)
  : M (FlyweightFactory * shared_ptr) :=
  let* this :=
    match pool this !! type with
    | None =>                                      (* pool.find(type) == pool.end() *)
        match string_find type "Color" with
        | Some _ =>                                (* != string::npos *)
            let* p := make_shared (ColoredFigure type) in
            ret (mkFlyweightFactory (<[type := p]> (pool this)))
        | None =>
            let* p := make_shared (BWFigure type) in
            ret (mkFlyweightFactory (<[type := p]> (pool this)))
        end
    | Some _ => ret this
    end in
  let '(m, p) := map_subscript (pool this) type in
  ret (mkFlyweightFactory m, p).

(** ** Builders (lines 92-130) *)

(** The function-local static is constructed on the first call; the
    defaulted constructor leaves [coord] empty. *)
Definition BarBuilder_getInstance : M BuilderPtr :=
  λ w, match bar_instance w with
       | Some _ => Some (BarPtr, w)
       | None => Some (BarPtr, set_bar (Some (mkBarBuilder EmptyString mkDrawGraph)) w)
       end.

Definition BarBuilder_setCoord (this : BarBuilder) (c : string) : M BarBuilder :=
  enter (OnBuilder BarPtr (SetCoord c)) >>
  ret (mkBarBuilder c (BarBuilder_proxy this)).
Definition BarBuilder_calc (this : BarBuilder) : M unit :=
  enter (OnBuilder BarPtr Calc) >>
  print "Bar calc at " >> print (BarBuilder_coord this) >> print nl.
Definition BarBuilder_draw (this : BarBuilder) : M unit :=
  enter (OnBuilder BarPtr Draw) >> DrawGraph_draw (BarBuilder_proxy this).
Definition BarBuilder_drag (this : BarBuilder) : M unit :=
  enter (OnBuilder BarPtr Drag) >>
  print "Drag Bar at " >> print (BarBuilder_coord this) >> print nl.

Definition LineBuilder_getInstance : M BuilderPtr :=
  λ w, match line_instance w with
       | Some _ => Some (LinePtr, w)
       | None => Some (LinePtr, set_line (Some (mkLineBuilder EmptyString mkDrawGraph)) w)
       end.

Definition LineBuilder_setCoord (this : LineBuilder) (c : string) : M LineBuilder :=
  enter (OnBuilder LinePtr (SetCoord c)) >>
  ret (mkLineBuilder c (LineBuilder_proxy this)).
Definition LineBuilder_calc (this : LineBuilder) : M unit :=
  enter (OnBuilder LinePtr Calc) >>
  print "Line calc at " >> print (LineBuilder_coord this) >> print nl.
Definition LineBuilder_draw (this : LineBuilder) : M unit :=
  enter (OnBuilder LinePtr Draw) >> DrawGraph_draw (LineBuilder_proxy this).
Definition LineBuilder_drag (this : LineBuilder) : M unit :=
  enter (OnBuilder LinePtr Drag) >>
  print "Drag Line at " >> print (LineBuilder_coord this) >> print nl.

(** Reading and writing the statics through a pointer; a pointer to a
    static that was never constructed cannot be dereferenced. *)
Definition load_bar : M BarBuilder :=
  λ w, match bar_instance w with Some b => Some (b, w) | None => None end.
Definition store_bar (b : BarBuilder) : M unit :=
  λ w, Some (tt, set_bar (Some b) w).
Definition load_line : M LineBuilder :=
  λ w, match line_instance w with Some b => Some (b, w) | None => None end.
Definition store_line (b : LineBuilder) : M unit :=
  λ w, Some (tt, set_line (Some b) w).

(** Virtual calls through a [Builder*]. *)
Definition Builder_setCoord (b : BuilderPtr) (coord : string) : M unit :=
  match b with
  | BarPtr => let* this := load_bar in
              let* this := BarBuilder_setCoord this coord in store_bar this
  | LinePtr => let* this := load_line in
               let* this := LineBuilder_setCoord this coord in store_line this
  end.
Definition Builder_calc (b : BuilderPtr) : M unit :=
  match b with
  | BarPtr => let* this := load_bar in BarBuilder_calc this
  | LinePtr => let* this := load_line in LineBuilder_calc this
  end.
Definition Builder_draw (b : BuilderPtr) : M unit :=
  match b with
  | BarPtr => let* this := load_bar in BarBuilder_draw this
  | LinePtr => let* this := load_line in LineBuilder_draw this
  end.
Definition Builder_drag (b : BuilderPtr) : M unit :=
  match b with
  | BarPtr => let* this := load_bar in BarBuilder_drag this
  | LinePtr => let* this := load_line in LineBuilder_drag this
  end.

(** ** Director (lines 133-143) *)

Definition Director_setBuilder (this : Director) (b : BuilderPtr) : Director :=
  mkDirector (Some b).

Definition Director_construct (this : Director) (type coord : string) : M unit :=
  match Director_builder this with
  | None => undefined
  | Some builder =>
      Builder_setCoord builder coord >>
      Builder_calc builder >>
      Builder_draw builder >>
      Builder_drag builder
  end.

(** ** GraphFactory (lines 146-158) *)

Definition GraphFactory_createGraph (this : GraphFactory) (type coord : string)
  : M unit :=
  let d := mkDirector None in
  if String.eqb type "Bar" then
    let* b := BarBuilder_getInstance in
    let d := Director_setBuilder d b in
    Director_construct d type coord
  else if String.eqb type "Line" then
    let* b := LineBuilder_getInstance in
    let d := Director_setBuilder d b in
    Director_construct d type coord
  else ret tt.

(** ** FigureFactory (lines 161-175) *)

Definition FigureFactory_getInstance : M unit :=
  λ w, match figure_instance w with
       | Some _ => Some (tt, w)
       | None =>
           Some (tt, set_figure (Some (mkFigureFactory (mkFlyweightFactory ∅))) w)
       end.

Definition FigureFactory_getFigure (this : FigureFactory) (type coord : string)
  : M (FigureFactory * shared_ptr) :=
  let* (fly, fig) := FlyweightFactory_getFigure (flyFactory this) type in
  print "Coordinates: " >> print coord >> print nl >>
  FlyweightFigure_draw fig >>
  ret (mkFigureFactory fly, fig).

(** A member call on the object [FigureFactory::getInstance()] refers to. *)
Definition on_figure_instance {A} (method : FigureFactory → M (FigureFactory * A))
  : M A :=
  λ w, match figure_instance w with
       | None => None
       | Some this =>
           match method this w with
           | Some ((this', a), w') => Some (a, set_figure (Some this') w')
           | None => None
           end
       end.

(** [FigureFactory::getInstance().getFigure(type, coord)] *)
Definition FigureFactory_instance_getFigure (type coord : string) : M shared_ptr :=
  FigureFactory_getInstance >>
  on_figure_instance (λ this, FigureFactory_getFigure this type coord).

(** ** DiagramFactory (lines 178-193) *)

Definition DiagramFactory_createGraph (this : DiagramFactory) (type coord : string)
  : M unit :=
  GraphFactory_createGraph (graphFactory this) type coord.

Definition DiagramFactory_createFigure (this : DiagramFactory) (type coord : string)
  : M unit :=
  FigureFactory_instance_getFigure type coord >> ret tt.

Definition DiagramFactory_getDiagram (this : DiagramFactory)
    (element type coord : string) : M unit :=
  if String.eqb element "Graph" then DiagramFactory_createGraph this type coord
  else if String.eqb element "Figure" then DiagramFactory_createFigure this type coord
  else ret tt.

(** ** Client code (lines 196-208) *)

Definition main : M Z :=
  let df := mkDiagramFactory mkGraphFactory in
  DiagramFactory_getDiagram df "Graph" "Line" "(10,20)" >>
  DiagramFactory_getDiagram df "Graph" "Bar" "(15,30)" >>
  DiagramFactory_getDiagram df "Figure" "CircleColor" "(5,5)" >>
  DiagramFactory_getDiagram df "Figure" "SquareBW" "(2,3)" >>
  ret 0%Z.

(** ** Executions: any sequence of calls on the factories' public methods *)

Inductive ClientCall : Type :=
  | GetDiagram (df : DiagramFactory) (element type coord : string)
  | CreateGraph (df : DiagramFactory) (type coord : string)
  | CreateFigure (df : DiagramFactory) (type coord : string)
  | GraphFactoryCreateGraph (gf : GraphFactory) (type coord : string)
  | FigureFactoryGetFigure (type coord : string).

Definition exec (c : ClientCall) : M unit :=
  match c with
  | GetDiagram df element type coord => DiagramFactory_getDiagram df element type coord
  | CreateGraph df type coord => DiagramFactory_createGraph df type coord
  | CreateFigure df type coord => DiagramFactory_createFigure df type coord
  | GraphFactoryCreateGraph gf type coord => GraphFactory_createGraph gf type coord
  | FigureFactoryGetFigure type coord =>
      FigureFactory_instance_getFigure type coord >> ret tt
  end.

Fixpoint run (cs : list ClientCall) : M unit :=
  match cs with
  | [] => ret tt
  | c :: cs => exec c >> run cs
  end.

(** The worlds a process can be in between two client calls. *)
Definition reachable (w : World) : Prop :=
  ∃ cs, run cs init = Some (tt, w).

(** The flyweight pool of the process: the pool of the [FigureFactory]
    static, empty as long as that static has not been constructed. *)
Definition the_pool (w : World) : gmap string shared_ptr :=
  match figure_instance w with
  | Some f => pool (flyFactory f)
  | None => ∅
  end.

(** * Specification vocabulary

    What the statements below talk about: substrings, the consistency of
    the pool, and each client call read as a function of the world. *)

(** What "the key contains the substring" means. *)
Definition contains (s pat : string) : Prop :=
  ∃ pre post, s = pre +:+ pat +:+ post.

(** The object [getFigure] allocates for a key that is not cached. *)
Definition classify (type : string) : FlyweightFigure :=
  match string_find type "Color" with
  | Some _ => ColoredFigure type
  | None => BWFigure type
  end.

(** Every cached pointer is live and points to the flyweight its key
    asks for. *)
Definition pool_ok (m : gmap string shared_ptr) (h : list FlyweightFigure) : Prop :=
  ∀ k p, m !! k = Some p → ∃ a, p = Some a ∧ h !! a = Some (classify k).

(** The lines one construction writes. *)
Definition graph_output (b : BuilderPtr) (coord : string) : string :=
  match b with
  | BarPtr => "Bar calc at " +:+ coord +:+ nl +:+ proxy_message +:+ nl +:+
              "Drag Bar at " +:+ coord +:+ nl
  | LinePtr => "Line calc at " +:+ coord +:+ nl +:+ proxy_message +:+ nl +:+
               "Drag Line at " +:+ coord +:+ nl
  end.

(** The bodies one construction enters on builder [b]. *)
Definition graph_calls (b : BuilderPtr) (coord : string) : list Invocation :=
  [OnBuilder b (SetCoord coord); OnBuilder b Calc; OnBuilder b Draw;
   OnDrawGraph; OnBuilder b Drag].

(** The world after [Director::construct] ran on builder [b]. *)
Definition after_graph (b : BuilderPtr) (coord : string) (w : World) : World :=
  let out := cout w +:+ graph_output b coord in
  let tr := calls w ++ graph_calls b coord in
  match b with
  | BarPtr =>
      mkWorld (Some (mkBarBuilder coord mkDrawGraph)) (line_instance w)
        (figure_instance w) (heap w) out tr
  | LinePtr =>
      mkWorld (bar_instance w) (Some (mkLineBuilder coord mkDrawGraph))
        (figure_instance w) (heap w) out tr
  end.

(** The line a flyweight's [draw] writes, without its line feed. *)
Definition figure_line (o : FlyweightFigure) : string :=
  match o with
  | ColoredFigure t => "[Colored Flyweight] Drawing colored figure of type: " +:+ t
  | BWFigure t => "[B/W Flyweight] Drawing black and white figure of type: " +:+ t
  end.

(** The two lines [FigureFactory::getFigure] writes. *)
Definition figure_output (type coord : string) : string :=
  "Coordinates: " +:+ coord +:+ nl +:+ figure_line (classify type) +:+ nl.

(** The pointer the pool holds for [type] once the call is over. *)
Definition figure_ptr (type : string) (w : World) : shared_ptr :=
  match the_pool w !! type with
  | Some p => p
  | None => Some (length (heap w))
  end.

(** The world after [FigureFactory::getInstance().getFigure(type, coord)]:
    the static exists, and a key seen for the first time got its object. *)
Definition after_figure (type coord : string) (w : World) : World :=
  let out := cout w +:+ figure_output type coord in
  let tr := calls w ++ [OnFlyweight (classify type)] in
  match the_pool w !! type with
  | Some _ =>
      mkWorld (bar_instance w) (line_instance w)
        (Some (mkFigureFactory (mkFlyweightFactory (the_pool w))))
        (heap w) out tr
  | None =>
      mkWorld (bar_instance w) (line_instance w)
        (Some (mkFigureFactory (mkFlyweightFactory
                 (<[type := Some (length (heap w))]> (the_pool w)))))
        (heap w ++ [classify type]) out tr
  end.

(** The invariant of the process: the pool of the [FigureFactory] static
    only holds live pointers to the right flyweights. *)
Definition wf (w : World) : Prop := pool_ok (the_pool w) (heap w).

(** [GraphFactory::createGraph] and the client calls, as world
    transformers. *)
Definition graph_effect (type coord : string) (w : World) : World :=
  if String.eqb type "Bar" then after_graph BarPtr coord w
  else if String.eqb type "Line" then after_graph LinePtr coord w
  else w.

Definition effect (c : ClientCall) (w : World) : World :=
  match c with
  | GetDiagram _ element type coord =>
      if String.eqb element "Graph" then graph_effect type coord w
      else if String.eqb element "Figure" then after_figure type coord w
      else w
  | CreateGraph _ type coord
  | GraphFactoryCreateGraph _ type coord => graph_effect type coord w
  | CreateFigure _ type coord
  | FigureFactoryGetFigure type coord => after_figure type coord w
  end.

(** A whole run is the left fold of [effect]; in particular it never hits
    undefined behaviour. *)
Definition effects (cs : list ClientCall) (w : World) : World :=
  foldl (λ w c, effect c w) w cs.

(** The pool is unchanged or has one more key. *)
Definition pool_step (m m' : gmap string shared_ptr) : Prop :=
  m' = m ∨ ∃ k a, m !! k = None ∧ m' = <[k := Some a]> m.

(** The calls of [main], as a sample run. *)
Definition demo_calls : list ClientCall :=
  let df := mkDiagramFactory mkGraphFactory in
  [GetDiagram df "Graph" "Line" "(10,20)"; GetDiagram df "Graph" "Bar" "(15,30)";
   GetDiagram df "Figure" "CircleColor" "(5,5)"; GetDiagram df "Figure" "SquareBW" "(2,3)"].

(** The world [main] ends in. *)
Definition demo_world : World := effects demo_calls init.

(** The steps of builder [b] among the bodies entered, in order. *)
Definition builder_steps (b : BuilderPtr) (tr : list Invocation) : list BuilderStep :=
  omap (λ i, match i, b with
             | OnBuilder BarPtr m, BarPtr | OnBuilder LinePtr m, LinePtr => Some m
             | _, _ => None
             end) tr.

(** The arguments a client call hands to [GraphFactory::createGraph]. *)
Definition graph_request (c : ClientCall) : option (string * string) :=
  match c with
  | GetDiagram _ element type coord =>
      if String.eqb element "Graph" then Some (type, coord) else None
  | CreateGraph _ type coord
  | GraphFactoryCreateGraph _ type coord => Some (type, coord)
  | CreateFigure _ _ _
  | FigureFactoryGetFigure _ _ => None
  end.

(** The coordinate of the most recent call in [cs] that asked for a graph
    of type [type]; [acc] when there is none. *)
Fixpoint last_coord (type : string) (acc : option string) (cs : list ClientCall)
  : option string :=
  match cs with
  | [] => acc
  | c :: cs =>
      last_coord type
        (match graph_request c with
         | Some (ty, co) => if String.eqb ty type then Some co else acc
         | None => acc
         end) cs
  end.

(** The methods of the real diagram classes [Graph] and [Figure]. *)
Definition is_diagram_call (i : Invocation) : bool :=
  match i with
  | OnGraph _ | OnFigure _ => true
  | _ => false
  end.

(** The bodies called [draw]. *)
Definition is_draw (i : Invocation) : bool :=
  match i with
  | OnGraph DoDraw | OnFigure DoDraw | OnDrawGraph | OnFlyweight _
  | OnBuilder _ Draw => true
  | _ => false
  end.

(** * Direct use of the classes by a client

    Besides the factories, client code can reach the two builder
    singletons through [getInstance] and can create [Graph] and [Figure]
    objects of its own; none of the classes is hidden. *)

(** [b->m(...)] for one of the four [Builder] methods (virtual call). *)
Definition Builder_call (b : BuilderPtr) (m : BuilderStep) : M unit :=
  match m with
  | SetCoord c => Builder_setCoord b c
  | Calc => Builder_calc b
  | Draw => Builder_draw b
  | Drag => Builder_drag b
  end.

(** [g.m()] on a [Graph g], and [f.m()] on a [Figure f]; neither class has
    a data member. *)
Definition Graph_call (m : DiagramStep) : M unit :=
  match m with DoCalc => Graph_calc | DoDraw => Graph_draw | DoDrag => Graph_drag end.
Definition Figure_call (m : DiagramStep) : M unit :=
  match m with DoCalc => Figure_calc | DoDraw => Figure_draw | DoDrag => Figure_drag end.

Inductive DirectCall : Type :=
  | Factory (c : ClientCall)
  | OnBarInstance (m : BuilderStep)    (* BarBuilder::getInstance().m(...) *)
  | OnLineInstance (m : BuilderStep)   (* LineBuilder::getInstance().m(...) *)
  | OnAGraph (m : DiagramStep)         (* Graph g; g.m() *)
  | OnAFigure (m : DiagramStep).       (* Figure f; f.m() *)

Definition exec_direct (c : DirectCall) : M unit :=
  match c with
  | Factory c => exec c
  | OnBarInstance m => let* b := BarBuilder_getInstance in Builder_call b m
  | OnLineInstance m => let* b := LineBuilder_getInstance in Builder_call b m
  | OnAGraph m => Graph_call m
  | OnAFigure m => Figure_call m
  end.

Fixpoint run_direct (cs : list DirectCall) : M unit :=
  match cs with
  | [] => ret tt
  | c :: cs => exec_direct c >> run_direct cs
  end.

(** The worlds a process can be in when clients also use the classes
    directly. *)
Definition reachable_direct (w : World) : Prop :=
  ∃ cs, run_direct cs init = Some (tt, w).

(** ** Vocabulary for the further properties *)

(** The coordinate a builder static holds; the empty string of the
    defaulted constructor when the static is yet to be constructed. *)
Definition bar_coord (w : World) : string :=
  match bar_instance w with Some b => BarBuilder_coord b | None => EmptyString end.
Definition line_coord (w : World) : string :=
  match line_instance w with Some b => LineBuilder_coord b | None => EmptyString end.

(** What one direct builder call writes and which bodies it enters, given
    the coordinate [held] by the static. *)
Definition builder_call_output (b : BuilderPtr) (m : BuilderStep) (held : string)
  : string :=
  match m, b with
  | SetCoord _, _ => EmptyString
  | Calc, BarPtr => "Bar calc at " +:+ held +:+ nl
  | Calc, LinePtr => "Line calc at " +:+ held +:+ nl
  | Draw, _ => proxy_message +:+ nl
  | Drag, BarPtr => "Drag Bar at " +:+ held +:+ nl
  | Drag, LinePtr => "Drag Line at " +:+ held +:+ nl
  end.

Definition builder_call_trace (b : BuilderPtr) (m : BuilderStep) : list Invocation :=
  match m with
  | Draw => [OnBuilder b Draw; OnDrawGraph]
  | _ => [OnBuilder b m]
  end.

(** The coordinate the static holds after the call. *)
Definition builder_call_coord (m : BuilderStep) (held : string) : string :=
  match m with SetCoord c => c | _ => held end.

Definition after_bar_call (m : BuilderStep) (w : World) : World :=
  mkWorld (Some (mkBarBuilder (builder_call_coord m (bar_coord w)) mkDrawGraph))
    (line_instance w) (figure_instance w) (heap w)
    (cout w +:+ builder_call_output BarPtr m (bar_coord w))
    (calls w ++ builder_call_trace BarPtr m).

Definition after_line_call (m : BuilderStep) (w : World) : World :=
  mkWorld (bar_instance w)
    (Some (mkLineBuilder (builder_call_coord m (line_coord w)) mkDrawGraph))
    (figure_instance w) (heap w)
    (cout w +:+ builder_call_output LinePtr m (line_coord w))
    (calls w ++ builder_call_trace LinePtr m).

(** The line each method of the real diagram classes writes. *)
Definition Graph_line (m : DiagramStep) : string :=
  match m with
  | DoCalc => "Calculating Graph"
  | DoDraw => "[Graph] Drawing graphical representation."
  | DoDrag => "Dragging Graph"
  end.
Definition Figure_line (m : DiagramStep) : string :=
  match m with
  | DoCalc => "Calculating Figure"
  | DoDraw => "[Figure Stub] Drawing textual stub."
  | DoDrag => "Dragging Figure"
  end.

(** One direct call as a function of the world. *)
Definition direct_effect (c : DirectCall) (w : World) : World :=
  match c with
  | Factory c => effect c w
  | OnBarInstance m => after_bar_call m w
  | OnLineInstance m => after_line_call m w
  | OnAGraph m =>
      set_cout (cout w +:+ Graph_line m +:+ nl) (set_calls (calls w ++ [OnGraph m]) w)
  | OnAFigure m =>
      set_cout (cout w +:+ Figure_line m +:+ nl) (set_calls (calls w ++ [OnFigure m]) w)
  end.

Definition direct_effects (cs : list DirectCall) (w : World) : World :=
  foldl (λ w c, direct_effect c w) w cs.



(** What a factory call writes, as a function of its arguments alone. *)
Definition graph_request_output (type coord : string) : string :=
  if String.eqb type "Bar" then graph_output BarPtr coord
  else if String.eqb type "Line" then graph_output LinePtr coord
  else EmptyString.

Definition call_output (c : ClientCall) : string :=
  match c with
  | GetDiagram _ element type coord =>
      if String.eqb element "Graph" then graph_request_output type coord
      else if String.eqb element "Figure" then figure_output type coord
      else EmptyString
  | CreateGraph _ type coord
  | GraphFactoryCreateGraph _ type coord => graph_request_output type coord
  | CreateFigure _ type coord
  | FigureFactoryGetFigure type coord => figure_output type coord
  end.

Fixpoint run_output (cs : list ClientCall) : string :=
  match cs with
  | [] => EmptyString
  | c :: cs => call_output c +:+ run_output cs
  end.

(** The coordinate the [BarBuilder] ([LineBuilder]) static holds after a
    direct call, [None] as long as the static has not been constructed:
    a graph request of the builder's type and a direct [setCoord] write
    it, any other direct call on the builder constructs the static at
    most. *)
Definition track_coord (b : BuilderPtr) (acc : option string) (c : DirectCall)
  : option string :=
  match c, b with
  | Factory c, _ =>
      match graph_request c with
      | Some (ty, co) =>
          if String.eqb ty (match b with BarPtr => "Bar" | LinePtr => "Line" end)
          then Some co else acc
      | None => acc
      end
  | OnBarInstance m, BarPtr
  | OnLineInstance m, LinePtr => Some (builder_call_coord m (default EmptyString acc))
  | _, _ => acc
  end.

(** The real-diagram bodies a direct call enters by itself. *)
Definition direct_diagram_calls (c : DirectCall) : list Invocation :=
  match c with
  | OnAGraph m => [OnGraph m]
  | OnAFigure m => [OnFigure m]
  | _ => []
  end.

(** The member [type] of a flyweight. *)
Definition figure_type (o : FlyweightFigure) : string :=
  match o with ColoredFigure t | BWFigure t => t end.


(** The static a [Builder*] points to has been constructed. *)
Definition constructed (b : BuilderPtr) (w : World) : Prop :=
  match b with
  | BarPtr => is_Some (bar_instance w)
  | LinePtr => is_Some (line_instance w)
  end.

(** The type string that makes [GraphFactory::createGraph] pick [b]. *)
Definition builder_name (b : BuilderPtr) : string :=
  match b with BarPtr => "Bar" | LinePtr => "Line" end.

(** The statics and the heap, without output and trace. *)
Definition same_state (w1 w2 : World) : Prop :=
  bar_instance w1 = bar_instance w2 ∧ line_instance w1 = line_instance w2 ∧
  figure_instance w1 = figure_instance w2 ∧ heap w1 = heap w2.

(** * Properties *)

(** ** The output of [main] *)

Example main_output :
  ∃ w, main init = Some (0%Z, w) ∧
       cout w = "Line calc at (10,20)" +:+ nl +:+ proxy_message +:+ nl +:+
                "Drag Line at (10,20)" +:+ nl +:+
                "Bar calc at (15,30)" +:+ nl +:+ proxy_message +:+ nl +:+
                "Drag Bar at (15,30)" +:+ nl +:+
                "Coordinates: (5,5)" +:+ nl +:+
                "[Colored Flyweight] Drawing colored figure of type: CircleColor" +:+ nl +:+
                "Coordinates: (2,3)" +:+ nl +:+
                "[B/W Flyweight] Drawing black and white figure of type: SquareBW" +:+ nl.
Proof. eexists. split; [vm_compute; reflexivity | vm_compute; reflexivity]. Qed.

(** ** Strings *)

Lemma append_cons a s t : String a s +:+ t = String a (s +:+ t).
Proof. reflexivity. Qed.

Lemma append_assoc s t u : (s +:+ t) +:+ u = s +:+ (t +:+ u).
Proof.
  induction s as [|a s IH]; [reflexivity|].
  by rewrite !append_cons, IH.
Qed.

(** Running a straight-line program, and bringing the output and the
    trace back to right-nested form. *)
Ltac run_prog :=
  unfold bind, ret, print, enter, load_bar, store_bar, load_line, store_line;
  simpl.

Ltac norm_out := rewrite ?append_assoc, <- ?(assoc_L (++)); simpl.

Lemma prefix_app pat s :
  String.prefix pat s = true ↔ ∃ post, s = pat +:+ post.
Proof.
  revert s; induction pat as [|a pat IH]; intros s.
  - split; [intros _; by exists s | intros _; by destruct s].
  - destruct s as [|b s]; simpl.
    + split; [done | intros [post H]; discriminate].
    + destruct (Ascii.ascii_dec a b) as [->|Hne].
      * rewrite IH. split; intros [post H]; exists post.
        -- by rewrite append_cons, H.
        -- rewrite append_cons in H. by injection H.
      * split; [done|]. intros [post H].
        rewrite append_cons in H. congruence.
Qed.

Lemma string_find_unfold s pat :
  string_find s pat =
    if String.prefix pat s then Some 0
    else match s with
         | EmptyString => None
         | String _ s' => S <$> string_find s' pat
         end.
Proof. by destruct s. Qed.

Lemma string_find_contains s pat :
  is_Some (string_find s pat) ↔ contains s pat.
Proof.
  unfold contains. induction s as [|a s IH]; rewrite string_find_unfold.
  - destruct (String.prefix pat "") eqn:Hp.
    + split; [intros _ | intros _; by eexists].
      apply prefix_app in Hp as [post Hp]. by exists "", post.
    + split; [by intros [? ?]|]. intros (pre & post & H).
      destruct pre; [|discriminate].
      assert (String.prefix pat "" = true) by (apply prefix_app; eauto).
      congruence.
  - destruct (String.prefix pat (String a s)) eqn:Hp.
    + split; [intros _ | intros _; by eexists].
      apply prefix_app in Hp as [post Hp]. by exists "", post.
    + rewrite fmap_is_Some, IH. split.
      * intros (pre & post & ->). by exists (String a pre), post.
      * intros (pre & post & H). destruct pre as [|b pre].
        -- assert (String.prefix pat (String a s) = true)
             by (apply prefix_app; eauto).
           congruence.
        -- rewrite append_cons in H. injection H as -> ->. eauto.
Qed.

Lemma string_find_None s pat :
  string_find s pat = None ↔ ¬ contains s pat.
Proof. by rewrite <- string_find_contains, eq_None_not_Some. Qed.

(** ** FlyweightFactory::getFigure *)

Lemma classify_colored type : contains type "Color" → classify type = ColoredFigure type.
Proof.
  intros H. apply string_find_contains in H as [i H].
  unfold classify. by rewrite H.
Qed.

Lemma classify_bw type : ¬ contains type "Color" → classify type = BWFigure type.
Proof.
  intros H. apply string_find_None in H. unfold classify. by rewrite H.
Qed.

Lemma FlyweightFactory_getFigure_cached this type p w :
  pool this !! type = Some p →
  FlyweightFactory_getFigure this type w = Some ((this, p), w).
Proof.
  intros H. unfold FlyweightFactory_getFigure, bind, ret, map_subscript.
  rewrite H. simpl. rewrite H. by destruct this.
Qed.

Lemma FlyweightFactory_getFigure_fresh this type w :
  pool this !! type = None →
  FlyweightFactory_getFigure this type w =
    Some ((mkFlyweightFactory (<[type := Some (length (heap w))]> (pool this)),
           Some (length (heap w))),
          set_heap (heap w ++ [classify type]) w).
Proof.
  intros H. unfold FlyweightFactory_getFigure, classify, map_subscript.
  rewrite H.
  destruct (string_find type "Color");
    unfold bind, make_shared, ret; simpl; by rewrite lookup_insert_eq.
Qed.

Lemma pool_ok_empty h : pool_ok ∅ h.
Proof. intros k p H. by rewrite lookup_empty in H. Qed.

Lemma pool_ok_alloc m h k :
  pool_ok m h → pool_ok (<[k := Some (length h)]> m) (h ++ [classify k]).
Proof.
  intros Hok k' p. rewrite lookup_insert. case_decide as Hk.
  - intros [= <-]. subst k'. exists (length h). split; [done|].
    by rewrite lookup_app_r, Nat.sub_diag.
  - intros H. destruct (Hok _ _ H) as (a & -> & Ha).
    exists a. split; [done|]. by apply lookup_app_l_Some.
Qed.

(** ** GraphFactory::createGraph *)

Lemma createGraph_Bar gf coord w :
  GraphFactory_createGraph gf "Bar" coord w = Some (tt, after_graph BarPtr coord w).
Proof.
  unfold GraphFactory_createGraph, Director_construct, Director_setBuilder,
    Builder_setCoord, Builder_calc, Builder_draw, Builder_drag,
    BarBuilder_getInstance, BarBuilder_setCoord, BarBuilder_calc,
    BarBuilder_draw, BarBuilder_drag, DrawGraph_draw, after_graph, graph_output,
    graph_calls.
  destruct w as [[[c []]|] ln fg h out tr]; run_prog; by norm_out.
Qed.

Lemma createGraph_Line gf coord w :
  GraphFactory_createGraph gf "Line" coord w = Some (tt, after_graph LinePtr coord w).
Proof.
  unfold GraphFactory_createGraph, Director_construct, Director_setBuilder,
    Builder_setCoord, Builder_calc, Builder_draw, Builder_drag,
    LineBuilder_getInstance, LineBuilder_setCoord, LineBuilder_calc,
    LineBuilder_draw, LineBuilder_drag, DrawGraph_draw, after_graph, graph_output,
    graph_calls.
  destruct w as [br [[c []]|] fg h out tr]; run_prog; by norm_out.
Qed.

Lemma createGraph_other gf type coord w :
  type ≠ "Bar" → type ≠ "Line" →
  GraphFactory_createGraph gf type coord w = Some (tt, w).
Proof.
  intros HB HL. unfold GraphFactory_createGraph.
  apply String.eqb_neq in HB, HL. by rewrite HB, HL.
Qed.

(** ** FigureFactory::getFigure on the singleton *)

Lemma FlyweightFigure_draw_at a o w :
  heap w !! a = Some o →
  FlyweightFigure_draw (Some a) w =
    Some (tt, set_cout (((cout w +:+ figure_line o) +:+ nl))
                (set_calls (calls w ++ [OnFlyweight o]) w)).
Proof.
  intros H. unfold FlyweightFigure_draw, bind, deref. rewrite H.
  destruct o; unfold ColoredFigure_draw, BWFigure_draw, figure_line;
    run_prog; by norm_out.
Qed.

Lemma instance_getFigure_eq type coord w :
  wf w →
  FigureFactory_instance_getFigure type coord w =
    Some (figure_ptr type w, after_figure type coord w).
Proof.
  intros Hwf.
  assert (∀ this : FigureFactory,
    pool_ok (pool (flyFactory this)) (heap w) →
    on_figure_instance (λ this, FigureFactory_getFigure this type coord)
      (set_figure (Some this) w) =
    Some (figure_ptr type (set_figure (Some this) w),
          after_figure type coord (set_figure (Some this) w))) as Hon.
  { intros [[m]] Hok. simpl in Hok.
    unfold on_figure_instance, FigureFactory_getFigure, figure_ptr, after_figure,
      the_pool, figure_output. simpl. unfold bind at 1.
    destruct (m !! type) as [p|] eqn:Hm.
    - rewrite (FlyweightFactory_getFigure_cached _ _ p) by done.
      destruct (Hok _ _ Hm) as (a & -> & Ha).
      run_prog. rewrite (FlyweightFigure_draw_at a (classify type)) by done.
      simpl. by norm_out.
    - rewrite FlyweightFactory_getFigure_fresh by done.
      run_prog.
      rewrite (FlyweightFigure_draw_at (length (heap w)) (classify type))
        by (simpl; by rewrite lookup_app_r, Nat.sub_diag).
      simpl. by norm_out. }
  unfold FigureFactory_instance_getFigure, bind, FigureFactory_getInstance.
  unfold wf, the_pool in Hwf.
  destruct (figure_instance w) as [this|] eqn:Hf.
  - specialize (Hon this Hwf).
    replace (set_figure (Some this) w) with w in Hon
      by (destruct w; simpl in *; by subst).
    done.
  - rewrite (Hon (mkFigureFactory (mkFlyweightFactory ∅))) by apply pool_ok_empty.
    unfold figure_ptr, after_figure, the_pool. simpl. by rewrite Hf.
Qed.

(** ** One client call as a function of the world *)

Lemma createGraph_eq gf type coord w :
  GraphFactory_createGraph gf type coord w = Some (tt, graph_effect type coord w).
Proof.
  unfold graph_effect.
  destruct (String.eqb_spec type "Bar") as [->|HB]; [apply createGraph_Bar|].
  destruct (String.eqb_spec type "Line") as [->|HL]; [apply createGraph_Line|].
  by apply createGraph_other.
Qed.

Lemma createFigure_eq df type coord w :
  wf w →
  DiagramFactory_createFigure df type coord w = Some (tt, after_figure type coord w).
Proof.
  intros Hwf. unfold DiagramFactory_createFigure, bind.
  by rewrite instance_getFigure_eq.
Qed.

Lemma exec_eq c w : wf w → exec c w = Some (tt, effect c w).
Proof.
  intros Hwf. destruct c as [df el ty co|df ty co|df ty co|gf ty co|ty co]; simpl.
  - unfold DiagramFactory_getDiagram.
    destruct (String.eqb el "Graph"); [apply createGraph_eq|].
    destruct (String.eqb el "Figure"); [by apply createFigure_eq | done].
  - apply createGraph_eq.
  - by apply createFigure_eq.
  - apply createGraph_eq.
  - by apply (createFigure_eq (mkDiagramFactory mkGraphFactory)).
Qed.

Lemma wf_after_graph b coord w : wf w → wf (after_graph b coord w).
Proof. by destruct b. Qed.

Lemma wf_after_figure type coord w : wf w → wf (after_figure type coord w).
Proof.
  unfold wf, after_figure. intros Hwf.
  destruct (the_pool w !! type) eqn:Hm; unfold the_pool at 1; simpl; [done|].
  by apply pool_ok_alloc.
Qed.

Lemma wf_graph_effect type coord w : wf w → wf (graph_effect type coord w).
Proof.
  intros Hwf. unfold graph_effect.
  repeat case_match; auto using wf_after_graph.
Qed.

Lemma wf_effect c w : wf w → wf (effect c w).
Proof.
  intros Hwf. destruct c; simpl; repeat case_match;
    auto using wf_graph_effect, wf_after_figure.
Qed.

Lemma wf_init : wf init.
Proof. apply pool_ok_empty. Qed.

Lemma wf_effects cs w : wf w → wf (effects cs w).
Proof.
  revert w. induction cs as [|c cs IH]; intros w Hwf; [done|].
  simpl. apply IH. by apply wf_effect.
Qed.

Lemma run_eq cs w : wf w → run cs w = Some (tt, effects cs w).
Proof.
  revert w. induction cs as [|c cs IH]; intros w Hwf; [done|].
  simpl. unfold bind. rewrite exec_eq by done. apply IH. by apply wf_effect.
Qed.

Lemma run_app cs1 cs2 w w1 :
  run cs1 w = Some (tt, w1) → run (cs1 ++ cs2) w = run cs2 w1.
Proof.
  revert w. induction cs1 as [|c cs1 IH]; intros w; simpl.
  - by intros [= ->].
  - unfold bind. destruct (exec c w) as [[[] w']|]; [apply IH | done].
Qed.

Lemma reachable_init : reachable init.
Proof. by exists []. Qed.

Lemma reachable_wf w : reachable w → wf w.
Proof.
  intros [cs Hcs]. rewrite run_eq in Hcs by apply wf_init.
  injection Hcs as <-. apply wf_effects, wf_init.
Qed.

Lemma reachable_run cs w w' :
  reachable w → run cs w = Some (tt, w') → reachable w'.
Proof.
  intros [cs0 H0] H. exists (cs0 ++ cs). by rewrite (run_app _ _ _ _ H0).
Qed.

(** ** How the pool and the heap evolve *)

Lemma the_pool_after_graph b coord w : the_pool (after_graph b coord w) = the_pool w.
Proof. by destruct b. Qed.

Lemma the_pool_after_figure type coord w :
  the_pool (after_figure type coord w) =
    match the_pool w !! type with
    | Some _ => the_pool w
    | None => <[type := Some (length (heap w))]> (the_pool w)
    end.
Proof. unfold after_figure. by destruct (the_pool w !! type). Qed.

Lemma the_pool_graph_effect type coord w :
  the_pool (graph_effect type coord w) = the_pool w.
Proof.
  unfold graph_effect. repeat case_match; auto using the_pool_after_graph.
Qed.

Lemma pool_step_after_figure type coord w :
  pool_step (the_pool w) (the_pool (after_figure type coord w)).
Proof.
  rewrite the_pool_after_figure.
  destruct (the_pool w !! type) eqn:Hm; [by left|].
  right. by exists type, (length (heap w)).
Qed.

Lemma pool_step_effect c w : pool_step (the_pool w) (the_pool (effect c w)).
Proof.
  destruct c; simpl; repeat case_match;
    rewrite ?the_pool_graph_effect;
    auto using pool_step_after_figure; by left.
Qed.

Lemma pool_step_lookup m m' k p : pool_step m m' → m !! k = Some p → m' !! k = Some p.
Proof.
  intros [->|(k' & a & Hk' & ->)] Hk; [done|].
  rewrite lookup_insert_ne; [done|]. intros ->. congruence.
Qed.

Lemma pool_kept_effects cs w k p :
  the_pool w !! k = Some p → the_pool (effects cs w) !! k = Some p.
Proof.
  revert w. induction cs as [|c cs IH]; intros w Hk; [done|].
  simpl. apply IH. eapply pool_step_lookup; [apply pool_step_effect | done].
Qed.

Lemma heap_after_graph b coord w : heap (after_graph b coord w) = heap w.
Proof. by destruct b. Qed.

Lemma heap_kept_effect c w a o :
  heap w !! a = Some o → heap (effect c w) !! a = Some o.
Proof.
  intros Ha.
  assert (∀ ty co, heap (graph_effect ty co w) !! a = Some o) as Hg.
  { intros ty co. unfold graph_effect.
    repeat case_match; by rewrite ?heap_after_graph. }
  assert (∀ ty co, heap (after_figure ty co w) !! a = Some o) as Hf.
  { intros ty co. unfold after_figure.
    destruct (the_pool w !! ty); simpl; [done|]. by apply lookup_app_l_Some. }
  destruct c; simpl; repeat case_match; auto.
Qed.

Lemma heap_kept_effects cs w a o :
  heap w !! a = Some o → heap (effects cs w) !! a = Some o.
Proof.
  revert w. induction cs as [|c cs IH]; intros w Ha; [done|].
  simpl. by apply IH, heap_kept_effect.
Qed.

Lemma the_pool_figure_ptr type coord w :
  the_pool (after_figure type coord w) !! type = Some (figure_ptr type w).
Proof.
  rewrite the_pool_after_figure. unfold figure_ptr.
  destruct (the_pool w !! type) eqn:Hm; [done|]. by rewrite lookup_insert_eq.
Qed.

Lemma figure_ptr_cached type p w :
  the_pool w !! type = Some p → figure_ptr type w = p.
Proof. intros H. unfold figure_ptr. by rewrite H. Qed.

(** After the call the pointer in the pool is live and leads to the
    flyweight of the key. *)
Lemma figure_ptr_live type coord w :
  wf w →
  ∃ a, figure_ptr type w = Some a ∧
       heap (after_figure type coord w) !! a = Some (classify type).
Proof.
  intros Hwf.
  destruct (wf_after_figure type coord w Hwf _ _ (the_pool_figure_ptr type coord w))
    as (a & Hp & Ha).
  eauto.
Qed.

Lemma reachable_demo : reachable demo_world.
Proof. exists demo_calls. vm_compute. reflexivity. Defined.

(** ** The claims *)

(** C1: for every key passed to [FlyweightFactory::getFigure], on any
    factory whose pool is consistent (as every pool built by [getFigure]
    from the empty one is), the call returns a live pointer to a
    [ColoredFigure] when the key contains "Color" and to a [BWFigure]
    otherwise, and keeps the pool consistent; the same holds for
    [FigureFactory::getInstance().getFigure] at any point of any run. *)
Theorem getFigure_variant (key : string) :
  (∀ (this : FlyweightFactory) (w : World),
     pool_ok (pool this) (heap w) →
     ∃ this' a w',
       FlyweightFactory_getFigure this key w = Some ((this', Some a), w') ∧
       pool_ok (pool this') (heap w') ∧
       (contains key "Color" → heap w' !! a = Some (ColoredFigure key)) ∧
       (¬ contains key "Color" → heap w' !! a = Some (BWFigure key))) ∧
  (∀ (coord : string) (w : World),
     reachable w →
     ∃ a w',
       FigureFactory_instance_getFigure key coord w = Some (Some a, w') ∧
       (contains key "Color" → heap w' !! a = Some (ColoredFigure key)) ∧
       (¬ contains key "Color" → heap w' !! a = Some (BWFigure key))).
Proof.
  split.
  - intros this w Hok. destruct (pool this !! key) as [p|] eqn:Hm.
    + destruct (Hok _ _ Hm) as (a & -> & Ha).
      exists this, a, w. split; [by apply FlyweightFactory_getFigure_cached|].
      split; [done|]. rewrite Ha.
      split; intros H; f_equal; first [by apply classify_colored | by apply classify_bw].
    + eexists _, _, _. split; [by apply FlyweightFactory_getFigure_fresh|].
      simpl. split; [by apply pool_ok_alloc|].
      rewrite lookup_app_r, Nat.sub_diag by done. simpl.
      split; intros H; f_equal; first [by apply classify_colored | by apply classify_bw].
  - intros coord w Hw. apply reachable_wf in Hw.
    destruct (figure_ptr_live key coord w Hw) as (a & Hp & Ha).
    exists a, (after_figure key coord w).
    split; [by rewrite instance_getFigure_eq, Hp|]. rewrite Ha.
    split; intros H; f_equal; first [by apply classify_colored | by apply classify_bw].
Qed.

Lemma getFigure_variant_witness :
  (∃ this' a w',
     FlyweightFactory_getFigure (mkFlyweightFactory ∅) "CircleColor" init =
       Some ((this', Some a), w') ∧
     pool_ok (pool this') (heap w') ∧
     (contains "CircleColor" "Color" → heap w' !! a = Some (ColoredFigure "CircleColor")) ∧
     (¬ contains "CircleColor" "Color" → heap w' !! a = Some (BWFigure "CircleColor"))) ∧
  (∃ a w',
     FigureFactory_instance_getFigure "CircleColor" "(5,5)" demo_world = Some (Some a, w') ∧
     (contains "CircleColor" "Color" → heap w' !! a = Some (ColoredFigure "CircleColor")) ∧
     (¬ contains "CircleColor" "Color" → heap w' !! a = Some (BWFigure "CircleColor"))).
Proof.
  split.
  - apply (proj1 (getFigure_variant "CircleColor")).
    intros k p H. vm_compute in H. discriminate.
  - apply (proj2 (getFigure_variant "CircleColor")).
    exact reachable_demo.
Defined.

(** C2: two calls of [FigureFactory::getInstance().getFigure] with the
    same key return the same pointer (the same address, not an equal
    copy), whatever the coordinates and whatever calls the client makes in
    between; the second call allocates nothing and the object at that
    address is untouched.  On any [FlyweightFactory], a call of [getFigure]
    leaves the factory in a state where every later call with that key
    returns the pointer just returned and changes nothing. *)
Theorem getFigure_same_instance (key : string) :
  (∀ (this : FlyweightFactory) (w : World),
     ∃ this1 p w1,
       FlyweightFactory_getFigure this key w = Some ((this1, p), w1) ∧
       ∀ w', FlyweightFactory_getFigure this1 key w' = Some ((this1, p), w')) ∧
  (∀ (c1 c2 : string) (cs : list ClientCall) (w : World),
     reachable w →
     ∃ a w1 w2 w3,
       FigureFactory_instance_getFigure key c1 w = Some (Some a, w1) ∧
       run cs w1 = Some (tt, w2) ∧
       FigureFactory_instance_getFigure key c2 w2 = Some (Some a, w3) ∧
       heap w3 = heap w2 ∧
       is_Some (heap w1 !! a) ∧
       heap w3 !! a = heap w1 !! a).
Proof.
  split.
  - intros this w. destruct (pool this !! key) as [p|] eqn:Hm.
    + exists this, p, w. split; [by apply FlyweightFactory_getFigure_cached|].
      intros w'. by apply FlyweightFactory_getFigure_cached.
    + eexists _, _, _. split; [by apply FlyweightFactory_getFigure_fresh|].
      intros w'. apply FlyweightFactory_getFigure_cached. simpl.
      by rewrite lookup_insert_eq.
  - intros c1 c2 cs w Hw. apply reachable_wf in Hw.
    destruct (figure_ptr_live key c1 w Hw) as (a & Hp & Ha).
    pose proof (wf_after_figure key c1 w Hw) as Hw1.
    pose proof (wf_effects cs _ Hw1) as Hw2.
    pose proof (the_pool_figure_ptr key c1 w) as Hk. rewrite Hp in Hk.
    apply (pool_kept_effects cs) in Hk.
    exists a, (after_figure key c1 w), (effects cs (after_figure key c1 w)),
      (after_figure key c2 (effects cs (after_figure key c1 w))).
    split; [by rewrite instance_getFigure_eq, Hp|].
    split; [by apply run_eq|].
    split; [by rewrite instance_getFigure_eq, (figure_ptr_cached _ _ _ Hk)|].
    assert (heap (after_figure key c2 (effects cs (after_figure key c1 w))) =
            heap (effects cs (after_figure key c1 w))) as Hh.
    { unfold after_figure at 1. by rewrite Hk. }
    split; [done|]. split; [by rewrite Ha|].
    rewrite Hh, Ha. by apply heap_kept_effects.
Qed.

Lemma getFigure_same_instance_witness :
  ∃ a w1 w2 w3,
    FigureFactory_instance_getFigure "SquareBW" "(0,0)" demo_world = Some (Some a, w1) ∧
    run [CreateFigure (mkDiagramFactory mkGraphFactory) "StarColor" "(7,7)"] w1 =
      Some (tt, w2) ∧
    FigureFactory_instance_getFigure "SquareBW" "(9,9)" w2 = Some (Some a, w3) ∧
    heap w3 = heap w2 ∧
    is_Some (heap w1 !! a) ∧
    heap w3 !! a = heap w1 !! a.
Proof.
  apply (proj2 (getFigure_same_instance "SquareBW")).
  exact reachable_demo.
Defined.

(** C3: an element string other than "Graph" and "Figure" makes
    [DiagramFactory::getDiagram] return with the world exactly as it was
    (statics, heap, output and trace); a type other than "Bar" and "Line"
    does the same for [GraphFactory::createGraph], also when reached
    through [DiagramFactory::createGraph] or [getDiagram("Graph", ...)]. *)
Theorem unknown_strings_ignored (df : DiagramFactory) (gf : GraphFactory)
    (element type coord : string) (w : World) :
  (element ≠ "Graph" → element ≠ "Figure" →
   DiagramFactory_getDiagram df element type coord w = Some (tt, w)) ∧
  (type ≠ "Bar" → type ≠ "Line" →
   GraphFactory_createGraph gf type coord w = Some (tt, w) ∧
   DiagramFactory_createGraph df type coord w = Some (tt, w) ∧
   DiagramFactory_getDiagram df "Graph" type coord w = Some (tt, w)).
Proof.
  split.
  - intros HG HF. unfold DiagramFactory_getDiagram.
    apply String.eqb_neq in HG, HF. by rewrite HG, HF.
  - intros HB HL. split; [by apply createGraph_other|].
    split; by apply createGraph_other.
Qed.

Lemma unknown_strings_ignored_witness :
  DiagramFactory_getDiagram (mkDiagramFactory mkGraphFactory) "Shape" "Pie" "(1,2)"
    demo_world = Some (tt, demo_world) ∧
  GraphFactory_createGraph mkGraphFactory "Pie" "(1,2)" demo_world =
    Some (tt, demo_world).
Proof.
  pose proof (unknown_strings_ignored (mkDiagramFactory mkGraphFactory)
                mkGraphFactory "Shape" "Pie" "(1,2)" demo_world) as [H1 H2].
  split.
  - apply H1; discriminate.
  - apply H2; discriminate.
Defined.

(** C4: for type "Bar" (and likewise "Line") and any coordinate,
    [GraphFactory::createGraph] returns, and the method bodies it enters
    are, in this order, [setCoord(coord)], [calc], [draw] (with the proxy's
    [draw] inside it) and [drag] of the selected singleton; it enters no
    method of the other builder.  The coordinate is stored before [calc]
    prints it. *)
Theorem createGraph_sequence (gf : GraphFactory) (coord : string) (w : World) :
  (∃ w' tr,
     GraphFactory_createGraph gf "Bar" coord w = Some (tt, w') ∧
     calls w' = calls w ++ tr ∧
     tr = [OnBuilder BarPtr (SetCoord coord); OnBuilder BarPtr Calc;
           OnBuilder BarPtr Draw; OnDrawGraph; OnBuilder BarPtr Drag] ∧
     builder_steps BarPtr tr = [SetCoord coord; Calc; Draw; Drag] ∧
     builder_steps LinePtr tr = [] ∧
     BarBuilder_coord <$> bar_instance w' = Some coord ∧
     cout w' = cout w +:+ "Bar calc at " +:+ coord +:+ nl +:+
               "[Graph Proxy] Drawing graphical + textual stub" +:+ nl +:+
               "Drag Bar at " +:+ coord +:+ nl) ∧
  (∃ w' tr,
     GraphFactory_createGraph gf "Line" coord w = Some (tt, w') ∧
     calls w' = calls w ++ tr ∧
     tr = [OnBuilder LinePtr (SetCoord coord); OnBuilder LinePtr Calc;
           OnBuilder LinePtr Draw; OnDrawGraph; OnBuilder LinePtr Drag] ∧
     builder_steps LinePtr tr = [SetCoord coord; Calc; Draw; Drag] ∧
     builder_steps BarPtr tr = [] ∧
     LineBuilder_coord <$> line_instance w' = Some coord ∧
     cout w' = cout w +:+ "Line calc at " +:+ coord +:+ nl +:+
               "[Graph Proxy] Drawing graphical + textual stub" +:+ nl +:+
               "Drag Line at " +:+ coord +:+ nl).
Proof.
  split.
  - exists (after_graph BarPtr coord w), (graph_calls BarPtr coord).
    split; [apply createGraph_Bar | done].
  - exists (after_graph LinePtr coord w), (graph_calls LinePtr coord).
    split; [apply createGraph_Line | done].
Qed.

(** C5: [DrawGraph::draw] always returns and appends the one fixed line
    to the output, whatever the world; [BarBuilder::draw] and
    [LineBuilder::draw] do exactly that for every builder object, whatever
    its coordinate, and leave the statics and the heap alone. *)
Theorem proxy_draw_fixed (w : World) :
  (∀ this : DrawGraph,
     ∃ w', DrawGraph_draw this w = Some (tt, w') ∧
           cout w' = cout w +:+ "[Graph Proxy] Drawing graphical + textual stub" +:+ nl ∧
           calls w' = calls w ++ [OnDrawGraph]) ∧
  (∀ this : BarBuilder,
     ∃ w', BarBuilder_draw this w = Some (tt, w') ∧
           cout w' = cout w +:+ "[Graph Proxy] Drawing graphical + textual stub" +:+ nl ∧
           calls w' = calls w ++ [OnBuilder BarPtr Draw; OnDrawGraph] ∧
           bar_instance w' = bar_instance w ∧ line_instance w' = line_instance w ∧
           figure_instance w' = figure_instance w ∧ heap w' = heap w) ∧
  (∀ this : LineBuilder,
     ∃ w', LineBuilder_draw this w = Some (tt, w') ∧
           cout w' = cout w +:+ "[Graph Proxy] Drawing graphical + textual stub" +:+ nl ∧
           calls w' = calls w ++ [OnBuilder LinePtr Draw; OnDrawGraph] ∧
           bar_instance w' = bar_instance w ∧ line_instance w' = line_instance w ∧
           figure_instance w' = figure_instance w ∧ heap w' = heap w).
Proof.
  split; [|split]; intros this; eexists;
    (split; [reflexivity|]); simpl; by rewrite <- ?(assoc_L (++)).
Qed.

(** ** Builder coordinates across a run *)

Lemma statics_after_figure type coord w :
  bar_instance (after_figure type coord w) = bar_instance w ∧
  line_instance (after_figure type coord w) = line_instance w.
Proof. unfold after_figure. by destruct (the_pool w !! type). Qed.

Lemma bar_graph_effect ty co w :
  BarBuilder_coord <$> bar_instance (graph_effect ty co w) =
    if String.eqb ty "Bar" then Some co else BarBuilder_coord <$> bar_instance w.
Proof.
  unfold graph_effect. destruct (String.eqb ty "Bar"); [done|].
  by destruct (String.eqb ty "Line").
Qed.

Lemma line_graph_effect ty co w :
  LineBuilder_coord <$> line_instance (graph_effect ty co w) =
    if String.eqb ty "Line" then Some co else LineBuilder_coord <$> line_instance w.
Proof.
  unfold graph_effect.
  destruct (String.eqb_spec ty "Bar") as [->|HB]; [done|].
  by destruct (String.eqb ty "Line").
Qed.

Lemma bar_effect c w :
  BarBuilder_coord <$> bar_instance (effect c w) =
    match graph_request c with
    | Some (ty, co) =>
        if String.eqb ty "Bar" then Some co else BarBuilder_coord <$> bar_instance w
    | None => BarBuilder_coord <$> bar_instance w
    end.
Proof.
  destruct c as [df el ty co|df ty co|df ty co|gf ty co|ty co]; simpl;
    try apply bar_graph_effect;
    try (by rewrite (proj1 (statics_after_figure _ _ _))).
  destruct (String.eqb el "Graph"); [apply bar_graph_effect|].
  destruct (String.eqb el "Figure"); [|done].
  by rewrite (proj1 (statics_after_figure _ _ _)).
Qed.

Lemma line_effect c w :
  LineBuilder_coord <$> line_instance (effect c w) =
    match graph_request c with
    | Some (ty, co) =>
        if String.eqb ty "Line" then Some co else LineBuilder_coord <$> line_instance w
    | None => LineBuilder_coord <$> line_instance w
    end.
Proof.
  destruct c as [df el ty co|df ty co|df ty co|gf ty co|ty co]; simpl;
    try apply line_graph_effect;
    try (by rewrite (proj2 (statics_after_figure _ _ _))).
  destruct (String.eqb el "Graph"); [apply line_graph_effect|].
  destruct (String.eqb el "Figure"); [|done].
  by rewrite (proj2 (statics_after_figure _ _ _)).
Qed.

Lemma coords_effects cs w :
  BarBuilder_coord <$> bar_instance (effects cs w) =
    last_coord "Bar" (BarBuilder_coord <$> bar_instance w) cs ∧
  LineBuilder_coord <$> line_instance (effects cs w) =
    last_coord "Line" (LineBuilder_coord <$> line_instance w) cs.
Proof.
  revert w. induction cs as [|c cs IH]; intros w; [done|].
  simpl. destruct (IH (effect c w)) as [HB HL].
  by rewrite HB, HL, bar_effect, line_effect.
Qed.

(** C6: after any run from process start, the coordinate held by the
    [BarBuilder] static is the one of the most recent request for a "Bar"
    graph and the coordinate held by the [LineBuilder] static is the one of
    the most recent request for a "Line" graph (the static does not exist
    when there was no such request); a "Bar" construction leaves the
    [LineBuilder] static as it was, and conversely. *)
Theorem builders_do_not_interfere (gf : GraphFactory) (coord : string) :
  (∀ cs : list ClientCall,
     ∃ w, run cs init = Some (tt, w) ∧
          BarBuilder_coord <$> bar_instance w = last_coord "Bar" None cs ∧
          LineBuilder_coord <$> line_instance w = last_coord "Line" None cs) ∧
  (∀ w : World,
     ∃ w', GraphFactory_createGraph gf "Bar" coord w = Some (tt, w') ∧
           bar_instance w' = Some (mkBarBuilder coord mkDrawGraph) ∧
           line_instance w' = line_instance w) ∧
  (∀ w : World,
     ∃ w', GraphFactory_createGraph gf "Line" coord w = Some (tt, w') ∧
           line_instance w' = Some (mkLineBuilder coord mkDrawGraph) ∧
           bar_instance w' = bar_instance w).
Proof.
  split; [|split].
  - intros cs. exists (effects cs init).
    split; [apply run_eq, wf_init | apply (coords_effects cs init)].
  - intros w. eexists. split; [apply createGraph_Bar | done].
  - intros w. eexists. split; [apply createGraph_Line | done].
Qed.

Example bar_then_line (gf : GraphFactory) :
  ∃ w, run [GraphFactoryCreateGraph gf "Bar" "(1,1)";
            GraphFactoryCreateGraph gf "Line" "(2,2)";
            GraphFactoryCreateGraph gf "Pie" "(3,3)"] init = Some (tt, w) ∧
       BarBuilder_coord <$> bar_instance w = Some "(1,1)" ∧
       LineBuilder_coord <$> line_instance w = Some "(2,2)".
Proof.
  destruct gf. eexists. split; [vm_compute; reflexivity|].
  split; vm_compute; reflexivity.
Qed.

(** C7: at any point of any run, a client call returns and either leaves
    the pool of the [FigureFactory] static as it is or adds one binding
    for a key that had none; so whatever further calls follow, a key that
    is bound stays bound to the same pointer. *)
Theorem pool_only_grows (c : ClientCall) (w : World) :
  reachable w →
  (∃ w', exec c w = Some (tt, w') ∧
         (the_pool w' = the_pool w ∨
          ∃ k a, the_pool w !! k = None ∧
                 the_pool w' = <[k := Some a]> (the_pool w))) ∧
  (∀ cs : list ClientCall,
     ∃ w', run cs w = Some (tt, w') ∧
           ∀ k p, the_pool w !! k = Some p → the_pool w' !! k = Some p).
Proof.
  intros Hw. apply reachable_wf in Hw. split.
  - exists (effect c w). split; [by apply exec_eq | apply pool_step_effect].
  - intros cs. exists (effects cs w). split; [by apply run_eq|].
    intros k p. apply pool_kept_effects.
Qed.

Lemma pool_only_grows_witness :
  (∃ w', exec (CreateFigure (mkDiagramFactory mkGraphFactory) "StarColor" "(7,7)")
           demo_world = Some (tt, w') ∧
         (the_pool w' = the_pool demo_world ∨
          ∃ k a, the_pool demo_world !! k = None ∧
                 the_pool w' = <[k := Some a]> (the_pool demo_world))) ∧
  (∀ cs : list ClientCall,
     ∃ w', run cs demo_world = Some (tt, w') ∧
           ∀ k p, the_pool demo_world !! k = Some p → the_pool w' !! k = Some p).
Proof.
  apply (pool_only_grows
           (CreateFigure (mkDiagramFactory mkGraphFactory) "StarColor" "(7,7)")
           demo_world).
  exact reachable_demo.
Defined.

(** ** Output and trace of the figure path *)

Lemma out_after_figure type coord w :
  cout (after_figure type coord w) = cout w +:+ figure_output type coord ∧
  calls (after_figure type coord w) = calls w ++ [OnFlyweight (classify type)].
Proof. unfold after_figure. by destruct (the_pool w !! type). Qed.

(** C8: at any point of any run, [getDiagram("Figure","CircleColor","(5,5)")]
    returns and appends to the output exactly the line "Coordinates: (5,5)"
    followed by the line "[Colored Flyweight] Drawing colored figure of
    type: CircleColor"; the one body it enters is [ColoredFigure::draw]. *)
Theorem figure_scenario (df : DiagramFactory) (w : World) :
  reachable w →
  ∃ w', DiagramFactory_getDiagram df "Figure" "CircleColor" "(5,5)" w = Some (tt, w') ∧
        cout w' = cout w +:+ "Coordinates: (5,5)" +:+ nl +:+
                  "[Colored Flyweight] Drawing colored figure of type: CircleColor" +:+ nl ∧
        calls w' = calls w ++ [OnFlyweight (ColoredFigure "CircleColor")].
Proof.
  intros Hw. apply reachable_wf in Hw.
  exists (after_figure "CircleColor" "(5,5)" w).
  split; [by apply (exec_eq (GetDiagram df "Figure" "CircleColor" "(5,5)"))|].
  destruct (out_after_figure "CircleColor" "(5,5)" w) as [-> ->]. done.
Qed.

Lemma figure_scenario_witness :
  ∃ w', DiagramFactory_getDiagram (mkDiagramFactory mkGraphFactory)
          "Figure" "CircleColor" "(5,5)" init = Some (tt, w') ∧
        cout w' = cout init +:+ "Coordinates: (5,5)" +:+ nl +:+
                  "[Colored Flyweight] Drawing colored figure of type: CircleColor" +:+ nl ∧
        calls w' = calls init ++ [OnFlyweight (ColoredFigure "CircleColor")].
Proof.
  apply (figure_scenario (mkDiagramFactory mkGraphFactory) init).
  exists []. reflexivity.
Defined.

(** ** The bodies a run can enter *)

Lemma calls_graph_effect ty co w :
  ∃ tr, calls (graph_effect ty co w) = calls w ++ tr ∧
        forallb (λ i, negb (is_diagram_call i)) tr = true.
Proof.
  unfold graph_effect. destruct (String.eqb ty "Bar").
  { by exists (graph_calls BarPtr co). }
  destruct (String.eqb ty "Line").
  { by exists (graph_calls LinePtr co). }
  exists []. by rewrite app_nil_r.
Qed.

Lemma calls_effect c w :
  ∃ tr, calls (effect c w) = calls w ++ tr ∧
        forallb (λ i, negb (is_diagram_call i)) tr = true.
Proof.
  assert (∀ ty co, ∃ tr, calls (after_figure ty co w) = calls w ++ tr ∧
            forallb (λ i, negb (is_diagram_call i)) tr = true) as Hf.
  { intros ty co. eexists. split; [apply out_after_figure | done]. }
  destruct c as [df el ty co|df ty co|df ty co|gf ty co|ty co]; simpl;
    auto using calls_graph_effect.
  destruct (String.eqb el "Graph"); [apply calls_graph_effect|].
  destruct (String.eqb el "Figure"); [apply Hf|].
  exists []. by rewrite app_nil_r.
Qed.

Lemma calls_effects cs w :
  forallb (λ i, negb (is_diagram_call i)) (calls w) = true →
  forallb (λ i, negb (is_diagram_call i)) (calls (effects cs w)) = true.
Proof.
  revert w. induction cs as [|c cs IH]; intros w Hw; [done|].
  simpl. apply IH. destruct (calls_effect c w) as (tr & -> & Htr).
  rewrite forallb_app. by rewrite Hw, Htr.
Qed.

(** C9: in any run, no method of the real diagram classes is ever
    entered, in particular neither [Graph::draw] nor [Figure::draw]; on
    the graph path the bodies named [draw] that are entered are the
    builder's and then the proxy's, and the line printed between the
    [calc] line and the [drag] line is the proxy's. *)
Theorem real_draw_never_invoked (df : DiagramFactory) (coord : string) (w : World) :
  reachable w →
  (∀ i, i ∈ calls w → is_diagram_call i = false) ∧
  (OnGraph DoDraw ∉ calls w) ∧ (OnFigure DoDraw ∉ calls w) ∧
  (∃ w' tr,
     DiagramFactory_getDiagram df "Graph" "Bar" coord w = Some (tt, w') ∧
     calls w' = calls w ++ tr ∧
     filter (λ i, is_draw i = true) tr = [OnBuilder BarPtr Draw; OnDrawGraph] ∧
     cout w' = cout w +:+ "Bar calc at " +:+ coord +:+ nl +:+
               proxy_message +:+ nl +:+ "Drag Bar at " +:+ coord +:+ nl) ∧
  (∃ w' tr,
     DiagramFactory_getDiagram df "Graph" "Line" coord w = Some (tt, w') ∧
     calls w' = calls w ++ tr ∧
     filter (λ i, is_draw i = true) tr = [OnBuilder LinePtr Draw; OnDrawGraph] ∧
     cout w' = cout w +:+ "Line calc at " +:+ coord +:+ nl +:+
               proxy_message +:+ nl +:+ "Drag Line at " +:+ coord +:+ nl).
Proof.
  intros [cs Hcs].
  assert (∀ i, i ∈ calls w → is_diagram_call i = false) as Hno.
  { rewrite run_eq in Hcs by apply wf_init. injection Hcs as <-.
    pose proof (calls_effects cs init eq_refl) as Hall.
    rewrite forallb_forall in Hall. intros i Hi.
    apply list_elem_of_In, Hall in Hi. by destruct (is_diagram_call i). }
  split; [done|].
  split; [intros Hi; by apply Hno in Hi|].
  split; [intros Hi; by apply Hno in Hi|].
  split.
  - exists (after_graph BarPtr coord w), (graph_calls BarPtr coord).
    split; [apply createGraph_Bar | done].
  - exists (after_graph LinePtr coord w), (graph_calls LinePtr coord).
    split; [apply createGraph_Line | done].
Qed.

Lemma real_draw_never_invoked_witness :
  (OnGraph DoDraw ∉ calls demo_world) ∧ (OnFigure DoDraw ∉ calls demo_world).
Proof.
  pose proof (real_draw_never_invoked (mkDiagramFactory mkGraphFactory) "(1,2)"
                demo_world reachable_demo) as (_ & HG & HF & _).
  by split.
Defined.

(** C10: a figure cached by [createFigure] on one [DiagramFactory] is the
    one [createFigure] on any other [DiagramFactory] finds for that key,
    whatever calls come in between: the second call allocates nothing,
    [FigureFactory::getFigure] inside it returns the address the first call
    put into the pool, and it draws the object living there. *)
Theorem pool_shared_by_all_factories (df1 df2 : DiagramFactory)
    (key c1 c2 : string) (cs : list ClientCall) (w : World) :
  reachable w →
  ∃ a o w1 w2 w3,
    DiagramFactory_createFigure df1 key c1 w = Some (tt, w1) ∧
    the_pool w1 !! key = Some (Some a) ∧
    heap w1 !! a = Some o ∧
    run cs w1 = Some (tt, w2) ∧
    FigureFactory_instance_getFigure key c2 w2 = Some (Some a, w3) ∧
    DiagramFactory_createFigure df2 key c2 w2 = Some (tt, w3) ∧
    the_pool w3 = the_pool w2 ∧
    heap w3 = heap w2 ∧
    heap w3 !! a = Some o ∧
    calls w3 = calls w2 ++ [OnFlyweight o].
Proof.
  intros Hw. apply reachable_wf in Hw.
  destruct (figure_ptr_live key c1 w Hw) as (a & Hp & Ha).
  pose proof (wf_after_figure key c1 w Hw) as Hw1.
  pose proof (wf_effects cs _ Hw1) as Hw2.
  pose proof (the_pool_figure_ptr key c1 w) as Hk1. rewrite Hp in Hk1.
  pose proof (pool_kept_effects cs _ _ _ Hk1) as Hk2.
  set (w1 := after_figure key c1 w) in *.
  set (w2 := effects cs w1) in *.
  assert (heap (after_figure key c2 w2) = heap w2 ∧
          the_pool (after_figure key c2 w2) = the_pool w2) as [Hh Hpool].
  { rewrite the_pool_after_figure. unfold after_figure. by rewrite Hk2. }
  exists a, (classify key), w1, w2, (after_figure key c2 w2).
  split; [by apply createFigure_eq|].
  do 2 (split; [done|]).
  split; [by apply run_eq|].
  split; [by rewrite instance_getFigure_eq, (figure_ptr_cached _ _ _ Hk2)|].
  split; [by apply createFigure_eq|].
  do 2 (split; [done|]).
  split; [rewrite Hh; by apply heap_kept_effects|].
  apply out_after_figure.
Qed.

Lemma pool_shared_by_all_factories_witness :
  ∃ a o w1 w2 w3,
    DiagramFactory_createFigure (mkDiagramFactory mkGraphFactory)
      "StarColor" "(1,1)" demo_world = Some (tt, w1) ∧
    the_pool w1 !! "StarColor" = Some (Some a) ∧
    heap w1 !! a = Some o ∧
    run [GetDiagram (mkDiagramFactory mkGraphFactory) "Figure" "DotBW" "(0,0)"] w1 =
      Some (tt, w2) ∧
    FigureFactory_instance_getFigure "StarColor" "(2,2)" w2 = Some (Some a, w3) ∧
    DiagramFactory_createFigure (mkDiagramFactory mkGraphFactory)
      "StarColor" "(2,2)" w2 = Some (tt, w3) ∧
    the_pool w3 = the_pool w2 ∧
    heap w3 = heap w2 ∧
    heap w3 !! a = Some o ∧
    calls w3 = calls w2 ++ [OnFlyweight o].
Proof.
  apply (pool_shared_by_all_factories (mkDiagramFactory mkGraphFactory)
           (mkDiagramFactory mkGraphFactory)).
  exact reachable_demo.
Defined.


(** * Further properties *)

(** ** Direct calls as world transformers *)

Lemma append_nil_r s : s +:+ EmptyString = s.
Proof. induction s as [|a s IH]; [done|]. by rewrite append_cons, IH. Qed.

Lemma bar_call_eq m w :
  exec_direct (OnBarInstance m) w = Some (tt, after_bar_call m w).
Proof.
  unfold exec_direct, Builder_call, Builder_setCoord, Builder_calc, Builder_draw,
    Builder_drag, BarBuilder_getInstance, BarBuilder_setCoord, BarBuilder_calc,
    BarBuilder_draw, BarBuilder_drag, DrawGraph_draw, after_bar_call, bar_coord.
  destruct m, w as [[[c0 []]|] ln fg h out tr]; run_prog;
    rewrite ?append_nil_r; by norm_out.
Qed.

Lemma line_call_eq m w :
  exec_direct (OnLineInstance m) w = Some (tt, after_line_call m w).
Proof.
  unfold exec_direct, Builder_call, Builder_setCoord, Builder_calc, Builder_draw,
    Builder_drag, LineBuilder_getInstance, LineBuilder_setCoord, LineBuilder_calc,
    LineBuilder_draw, LineBuilder_drag, DrawGraph_draw, after_line_call, line_coord.
  destruct m, w as [br [[c0 []]|] fg h out tr]; run_prog;
    rewrite ?append_nil_r; by norm_out.
Qed.

Lemma exec_direct_eq c w :
  wf w → exec_direct c w = Some (tt, direct_effect c w).
Proof.
  intros Hwf. destruct c as [c|m|m|m|m].
  - by apply exec_eq.
  - apply bar_call_eq.
  - apply line_call_eq.
  - by destruct m.
  - by destruct m.
Qed.

(** A direct call on a builder or on a diagram object leaves the
    [FigureFactory] static and the heap alone. *)
Lemma direct_frame c w :
  (∀ c', c ≠ Factory c') →
  figure_instance (direct_effect c w) = figure_instance w ∧
  heap (direct_effect c w) = heap w.
Proof. intros Hc. destruct c as [c|m|m|m|m]; [by destruct (Hc c)|done..]. Qed.

Lemma wf_direct_effect c w : wf w → wf (direct_effect c w).
Proof.
  intros Hwf. destruct c as [c|m|m|m|m]; [by apply wf_effect|done..].
Qed.

Lemma wf_direct_effects cs w : wf w → wf (direct_effects cs w).
Proof.
  revert w. induction cs as [|c cs IH]; intros w Hwf; [done|].
  simpl. by apply IH, wf_direct_effect.
Qed.

Lemma run_direct_eq cs w :
  wf w → run_direct cs w = Some (tt, direct_effects cs w).
Proof.
  revert w. induction cs as [|c cs IH]; intros w Hwf; [done|].
  simpl. unfold bind. rewrite exec_direct_eq by done.
  by apply IH, wf_direct_effect.
Qed.

Lemma reachable_direct_wf w : reachable_direct w → wf w.
Proof.
  intros [cs Hcs]. rewrite run_direct_eq in Hcs by apply wf_init.
  injection Hcs as <-. apply wf_direct_effects, wf_init.
Qed.

Lemma direct_effects_app cs1 cs2 w :
  direct_effects (cs1 ++ cs2) w = direct_effects cs2 (direct_effects cs1 w).
Proof. apply foldl_app. Qed.

Lemma direct_effects_Factory cs w :
  direct_effects (Factory <$> cs) w = effects cs w.
Proof.
  revert w. induction cs as [|c cs IH]; intros w; [done|]. simpl. apply IH.
Qed.

Lemma reachable_is_direct w : reachable w → reachable_direct w.
Proof.
  intros [cs Hcs]. exists (Factory <$> cs).
  rewrite run_eq in Hcs by apply wf_init. injection Hcs as <-.
  rewrite run_direct_eq by apply wf_init. by rewrite direct_effects_Factory.
Qed.

(** A sample mixed run: [main]'s calls, then a direct [setCoord] on the
    bar builder and a [Graph] of the client's own. *)
Lemma reachable_direct_demo :
  reachable_direct
    (direct_effects [OnBarInstance (SetCoord "(0,0)"); OnAGraph DoDraw] demo_world).
Proof.
  exists ((Factory <$> demo_calls) ++
          [OnBarInstance (SetCoord "(0,0)"); OnAGraph DoDraw]).
  vm_compute. reflexivity.
Defined.

(** ** One flyweight per key *)

Lemma figure_type_classify k : figure_type (classify k) = k.
Proof. unfold classify. by destruct (string_find k "Color"). Qed.





(** X1: whatever mix of factory calls, direct calls on the builder
    singletons and calls on diagram objects a client makes from process
    start, the run returns: no null or dangling flyweight pointer is
    dereferenced and no [Director] is used before its builder is set.  In
    the world reached every pointer in the pool is non-null and live. *)
Theorem mixed_runs_never_fail (cs : list DirectCall) :
  ∃ w, run_direct cs init = Some (tt, w) ∧
       ∀ k p, the_pool w !! k = Some p →
              ∃ a o, p = Some a ∧ heap w !! a = Some o ∧ figure_type o = k.
Proof.
  exists (direct_effects cs init). split; [apply run_direct_eq, wf_init|].
  intros k p Hk.
  destruct (wf_direct_effects cs init wf_init _ _ Hk) as (a & -> & Ha).
  exists a, (classify k). by rewrite figure_type_classify.
Qed.






(** ** What the factories write *)

Lemma cout_graph_effect ty co w :
  cout (graph_effect ty co w) = cout w +:+ graph_request_output ty co.
Proof.
  unfold graph_effect, graph_request_output.
  destruct (String.eqb ty "Bar"); [done|].
  destruct (String.eqb ty "Line"); [done|]. by rewrite append_nil_r.
Qed.

Lemma cout_effect c w : cout (effect c w) = cout w +:+ call_output c.
Proof.
  destruct c as [df el ty co|df ty co|df ty co|gf ty co|ty co]; simpl;
    try apply cout_graph_effect; try apply out_after_figure.
  destruct (String.eqb el "Graph"); [apply cout_graph_effect|].
  destruct (String.eqb el "Figure"); [apply out_after_figure|].
  by rewrite append_nil_r.
Qed.

Lemma cout_effects cs w : cout (effects cs w) = cout w +:+ run_output cs.
Proof.
  revert w. induction cs as [|c cs IH]; intros w; simpl.
  - by rewrite append_nil_r.
  - by rewrite IH, cout_effect, append_assoc.
Qed.

(** X4: what a run of factory calls writes depends on the arguments of
    the calls alone: started in any world a mixed run can reach, it
    appends the concatenation of the per-call texts.  Neither the
    coordinate a builder held before nor a figure being cached already
    shows in the output. *)
Theorem factory_output_is_stateless (cs : list ClientCall) (w : World) :
  reachable_direct w →
  ∃ w', run cs w = Some (tt, w') ∧ cout w' = cout w +:+ run_output cs.
Proof.
  intros Hw. apply reachable_direct_wf in Hw.
  exists (effects cs w). split; [by apply run_eq | apply cout_effects].
Qed.

Lemma factory_output_is_stateless_witness :
  ∃ w', run [GraphFactoryCreateGraph mkGraphFactory "Bar" "(4,4)";
             FigureFactoryGetFigure "SquareBW" "(6,6)"]
          (direct_effects [OnBarInstance (SetCoord "(0,0)"); OnAGraph DoDraw] demo_world)
        = Some (tt, w') ∧
        cout w' =
          cout (direct_effects [OnBarInstance (SetCoord "(0,0)"); OnAGraph DoDraw]
                  demo_world) +:+
          run_output [GraphFactoryCreateGraph mkGraphFactory "Bar" "(4,4)";
                      FigureFactoryGetFigure "SquareBW" "(6,6)"].
Proof.
  apply factory_output_is_stateless. exact reachable_direct_demo.
Defined.

(** X5: at any point of any mixed run,
    [FigureFactory::getInstance().getFigure(key, coord)] returns a non-null
    pointer and writes the coordinate line followed by the colored line
    naming [key] when [key] contains "Color", and by the black-and-white
    line naming [key] otherwise, whether or not the figure was cached. *)
Theorem getFigure_output (key coord : string) (w : World) :
  reachable_direct w →
  ∃ a w',
    FigureFactory_instance_getFigure key coord w = Some (Some a, w') ∧
    (contains key "Color" →
     cout w' = cout w +:+ "Coordinates: " +:+ coord +:+ nl +:+
               "[Colored Flyweight] Drawing colored figure of type: " +:+ key +:+ nl) ∧
    (¬ contains key "Color" →
     cout w' = cout w +:+ "Coordinates: " +:+ coord +:+ nl +:+
               "[B/W Flyweight] Drawing black and white figure of type: " +:+ key +:+ nl).
Proof.
  intros Hw. apply reachable_direct_wf in Hw.
  destruct (figure_ptr_live key coord w Hw) as (a & Hp & _).
  exists a, (after_figure key coord w).
  split; [by rewrite instance_getFigure_eq, Hp|].
  rewrite (proj1 (out_after_figure key coord w)). unfold figure_output.
  split; intros H.
  - by rewrite (classify_colored _ H).
  - by rewrite (classify_bw _ H).
Qed.

Lemma getFigure_output_witness :
  ∃ a w',
    FigureFactory_instance_getFigure "SquareBW" "(2,3)" init = Some (Some a, w') ∧
    (contains "SquareBW" "Color" →
     cout w' = cout init +:+ "Coordinates: " +:+ "(2,3)" +:+ nl +:+
               "[Colored Flyweight] Drawing colored figure of type: " +:+ "SquareBW" +:+ nl) ∧
    (¬ contains "SquareBW" "Color" →
     cout w' = cout init +:+ "Coordinates: " +:+ "(2,3)" +:+ nl +:+
               "[B/W Flyweight] Drawing black and white figure of type: " +:+ "SquareBW" +:+ nl).
Proof.
  apply getFigure_output. exists []. reflexivity.
Defined.

(** ** How factory calls compose *)

Lemma state_graph_effect ty co w :
  figure_instance (graph_effect ty co w) = figure_instance w ∧
  heap (graph_effect ty co w) = heap w.
Proof. unfold graph_effect. by repeat case_match. Qed.

Lemma after_figure_cong ty co w1 w2 :
  figure_instance w1 = figure_instance w2 → heap w1 = heap w2 →
  figure_instance (after_figure ty co w1) = figure_instance (after_figure ty co w2) ∧
  heap (after_figure ty co w1) = heap (after_figure ty co w2).
Proof.
  intros Hf Hh. unfold after_figure, the_pool. rewrite Hf, Hh.
  by destruct (_ !! ty).
Qed.

Lemma graph_effect_cong ty co w1 w2 :
  bar_instance w1 = bar_instance w2 → line_instance w1 = line_instance w2 →
  bar_instance (graph_effect ty co w1) = bar_instance (graph_effect ty co w2) ∧
  line_instance (graph_effect ty co w1) = line_instance (graph_effect ty co w2).
Proof. intros Hb Hl. unfold graph_effect. by repeat case_match. Qed.

Lemma graph_figure_swap ty co key coord w :
  same_state (after_figure key coord (graph_effect ty co w))
             (graph_effect ty co (after_figure key coord w)).
Proof.
  destruct (state_graph_effect ty co w) as [Hf Hh].
  destruct (after_figure_cong key coord _ _ Hf Hh) as [Hf' Hh'].
  destruct (state_graph_effect ty co (after_figure key coord w)) as [Hf2 Hh2].
  destruct (statics_after_figure key coord (graph_effect ty co w)) as [Hb Hl].
  destruct (statics_after_figure key coord w) as [Hb2 Hl2].
  destruct (graph_effect_cong ty co _ _ Hb2 Hl2) as [Hb3 Hl3].
  unfold same_state. by rewrite Hb, Hl, Hf', Hh', Hf2, Hh2, Hb3, Hl3.
Qed.

(** X6: a graph request and a figure request commute on the state: at
    any point of any mixed run, making them in either order leaves the
    same builder statics, the same pool and the same heap (only the order
    of the output differs). *)
Theorem graph_and_figure_commute (gf : GraphFactory) (type coord key fcoord : string)
    (w : World) :
  reachable_direct w →
  ∃ w1 w2,
    run [GraphFactoryCreateGraph gf type coord; FigureFactoryGetFigure key fcoord] w
      = Some (tt, w1) ∧
    run [FigureFactoryGetFigure key fcoord; GraphFactoryCreateGraph gf type coord] w
      = Some (tt, w2) ∧
    same_state w1 w2.
Proof.
  intros Hw. apply reachable_direct_wf in Hw.
  eexists _, _. split; [by apply run_eq|]. split; [by apply run_eq|].
  apply graph_figure_swap.
Qed.

Lemma graph_and_figure_commute_witness :
  ∃ w1 w2,
    run [GraphFactoryCreateGraph mkGraphFactory "Bar" "(1,1)";
         FigureFactoryGetFigure "StarColor" "(2,2)"] demo_world = Some (tt, w1) ∧
    run [FigureFactoryGetFigure "StarColor" "(2,2)";
         GraphFactoryCreateGraph mkGraphFactory "Bar" "(1,1)"] demo_world = Some (tt, w2) ∧
    same_state w1 w2.
Proof.
  apply graph_and_figure_commute. apply reachable_is_direct, reachable_demo.
Defined.

Lemma graph_effect_twice ty co w :
  same_state (graph_effect ty co (graph_effect ty co w)) (graph_effect ty co w).
Proof. unfold graph_effect, same_state. by repeat case_match. Qed.

Lemma after_figure_cached ty co p w :
  the_pool w !! ty = Some p → same_state (after_figure ty co w) w.
Proof.
  intros H. unfold after_figure. rewrite H. unfold same_state. simpl.
  do 2 (split; [done|]). split; [|done].
  unfold the_pool in *. destruct (figure_instance w) as [[[m]]|]; [done|].
  by rewrite lookup_empty in H.
Qed.

Lemma after_figure_twice ty co w :
  same_state (after_figure ty co (after_figure ty co w)) (after_figure ty co w).
Proof. apply (after_figure_cached _ _ _ _ (the_pool_figure_ptr ty co w)). Qed.

(** X7: repeating a factory call changes nothing but the output: at any
    point of any mixed run, making the same call twice leaves the builder
    statics, the [FigureFactory] static and the heap as making it once
    does. *)
Theorem repeated_call_only_prints (c : ClientCall) (w : World) :
  reachable_direct w →
  ∃ w1 w2, run [c] w = Some (tt, w1) ∧ run [c; c] w = Some (tt, w2) ∧
           same_state w2 w1.
Proof.
  intros Hw. apply reachable_direct_wf in Hw.
  eexists _, _. split; [by apply run_eq|]. split; [by apply run_eq|].
  simpl. destruct c as [df el ty co|df ty co|df ty co|gf ty co|ty co]; simpl;
    try apply graph_effect_twice; try apply after_figure_twice.
  destruct (String.eqb el "Graph"); [apply graph_effect_twice|].
  destruct (String.eqb el "Figure"); [apply after_figure_twice | done].
Qed.

Lemma repeated_call_only_prints_witness :
  ∃ w1 w2,
    run [FigureFactoryGetFigure "StarColor" "(2,2)"] demo_world = Some (tt, w1) ∧
    run [FigureFactoryGetFigure "StarColor" "(2,2)";
         FigureFactoryGetFigure "StarColor" "(2,2)"] demo_world = Some (tt, w2) ∧
    same_state w2 w1.
Proof.
  apply repeated_call_only_prints. apply reachable_is_direct, reachable_demo.
Defined.

(** ** The singletons *)

(** X8: each [getInstance] constructs its static on the first call only
    (a builder with the empty coordinate, a [FigureFactory] with the empty
    pool); when the static exists the call changes nothing, so the state a
    singleton holds survives every later [getInstance], and calling it
    twice in a row is the same as calling it once. *)
Theorem getInstance_constructs_once (w : World) :
  (∃ w1, BarBuilder_getInstance w = Some (BarPtr, w1) ∧
         BarBuilder_getInstance w1 = Some (BarPtr, w1) ∧
         bar_instance w1 =
           Some (default (mkBarBuilder EmptyString mkDrawGraph) (bar_instance w)) ∧
         (is_Some (bar_instance w) → w1 = w)) ∧
  (∃ w1, LineBuilder_getInstance w = Some (LinePtr, w1) ∧
         LineBuilder_getInstance w1 = Some (LinePtr, w1) ∧
         line_instance w1 =
           Some (default (mkLineBuilder EmptyString mkDrawGraph) (line_instance w)) ∧
         (is_Some (line_instance w) → w1 = w)) ∧
  (∃ w1, FigureFactory_getInstance w = Some (tt, w1) ∧
         FigureFactory_getInstance w1 = Some (tt, w1) ∧
         is_Some (figure_instance w1) ∧ the_pool w1 = the_pool w ∧
         (is_Some (figure_instance w) → w1 = w)).
Proof.
  unfold BarBuilder_getInstance, LineBuilder_getInstance,
    FigureFactory_getInstance, the_pool.
  destruct w as [br ln fg h out tr]; simpl. split; [|split].
  - destruct br; eexists; (split; [reflexivity|]); simpl; split_and!;
      try done; by intros [? ?].
  - destruct ln; eexists; (split; [reflexivity|]); simpl; split_and!;
      try done; by intros [? ?].
  - destruct fg; eexists; (split; [reflexivity|]); simpl; split_and!;
      try done; by intros [? ?].
Qed.

(** ** The coordinate a builder holds *)

Lemma bar_coord_default w :
  bar_coord w = default EmptyString (BarBuilder_coord <$> bar_instance w).
Proof. unfold bar_coord. by destruct (bar_instance w). Qed.

Lemma line_coord_default w :
  line_coord w = default EmptyString (LineBuilder_coord <$> line_instance w).
Proof. unfold line_coord. by destruct (line_instance w). Qed.

Lemma track_bar c w :
  BarBuilder_coord <$> bar_instance (direct_effect c w) =
    track_coord BarPtr (BarBuilder_coord <$> bar_instance w) c.
Proof.
  destruct c as [c|m|m|m|m]; simpl; [apply bar_effect | | done..].
  by rewrite bar_coord_default.
Qed.

Lemma track_line c w :
  LineBuilder_coord <$> line_instance (direct_effect c w) =
    track_coord LinePtr (LineBuilder_coord <$> line_instance w) c.
Proof.
  destruct c as [c|m|m|m|m]; simpl; [apply line_effect | done | | done..].
  by rewrite line_coord_default.
Qed.

Lemma track_effects cs w :
  BarBuilder_coord <$> bar_instance (direct_effects cs w) =
    foldl (track_coord BarPtr) (BarBuilder_coord <$> bar_instance w) cs ∧
  LineBuilder_coord <$> line_instance (direct_effects cs w) =
    foldl (track_coord LinePtr) (LineBuilder_coord <$> line_instance w) cs.
Proof.
  revert w. induction cs as [|c cs IH]; intros w; [done|].
  simpl. destruct (IH (direct_effect c w)) as [HB HL].
  by rewrite HB, HL, track_bar, track_line.
Qed.

(** X9: the coordinate is shared mutable state of the singleton.  After
    any mixed run from process start each builder static holds the
    coordinate written last, by a graph request of its type or by a direct
    [setCoord], and the empty string if it was only constructed; a direct
    [calc] or [drag] made then prints that coordinate, a direct [draw]
    prints the proxy line and a direct [setCoord] prints nothing.  Calls on
    one builder never change what the other holds. *)
Theorem builder_holds_last_written_coord (cs : list DirectCall) :
  ∃ w, run_direct cs init = Some (tt, w) ∧
       BarBuilder_coord <$> bar_instance w = foldl (track_coord BarPtr) None cs ∧
       LineBuilder_coord <$> line_instance w = foldl (track_coord LinePtr) None cs ∧
       (∀ m, ∃ w', exec_direct (OnBarInstance m) w = Some (tt, w') ∧
                   cout w' = cout w +:+
                     builder_call_output BarPtr m
                       (default EmptyString (foldl (track_coord BarPtr) None cs))) ∧
       (∀ m, ∃ w', exec_direct (OnLineInstance m) w = Some (tt, w') ∧
                   cout w' = cout w +:+
                     builder_call_output LinePtr m
                       (default EmptyString (foldl (track_coord LinePtr) None cs))).
Proof.
  exists (direct_effects cs init). split; [apply run_direct_eq, wf_init|].
  destruct (track_effects cs init) as [HB HL]. simpl in HB, HL.
  split; [done|]. split; [done|]. split; intros m; eexists.
  - split; [apply bar_call_eq|]. simpl. by rewrite bar_coord_default, HB.
  - split; [apply line_call_eq|]. simpl. by rewrite line_coord_default, HL.
Qed.

Example stale_coordinate :
  ∃ w w', run_direct [Factory (GraphFactoryCreateGraph mkGraphFactory "Bar" "(1,1)");
                      OnLineInstance Calc;
                      OnBarInstance (SetCoord "(9,9)")] init = Some (tt, w) ∧
          exec_direct (OnBarInstance Drag) w = Some (tt, w') ∧
          cout w' = cout w +:+ "Drag Bar at (9,9)" +:+ nl ∧
          line_coord w = EmptyString.
Proof.
  eexists _, _. split; [vm_compute; reflexivity|].
  split; [vm_compute; reflexivity|]. split; vm_compute; reflexivity.
Qed.

(** ** Director *)

Lemma Director_construct_eq b type coord w :
  constructed b w →
  Director_construct (mkDirector (Some b)) type coord w =
    Some (tt, after_graph b coord w).
Proof.
  unfold Director_construct, Builder_setCoord, Builder_calc, Builder_draw,
    Builder_drag, BarBuilder_setCoord, BarBuilder_calc, BarBuilder_draw,
    BarBuilder_drag, LineBuilder_setCoord, LineBuilder_calc, LineBuilder_draw,
    LineBuilder_drag, DrawGraph_draw, after_graph, graph_output, graph_calls.
  destruct b, w as [br ln fg h out tr]; simpl; intros [[c []] ->];
    run_prog; by norm_out.
Qed.

(** X10: [Director::construct] does not look at its [type] argument, and
    [setBuilder] overrides whatever the director pointed to: with the
    builder set to a constructed singleton, [construct] with any [type]
    string does exactly what [GraphFactory::createGraph] does for that
    builder's own type name. *)
Theorem Director_construct_ignores_type (d : Director) (b : BuilderPtr)
    (gf : GraphFactory) (type coord : string) (w : World) :
  constructed b w →
  Director_construct (Director_setBuilder d b) type coord w =
    GraphFactory_createGraph gf (builder_name b) coord w.
Proof.
  intros Hb. unfold Director_setBuilder. rewrite Director_construct_eq by done.
  destruct b; simpl; by rewrite ?createGraph_Bar, ?createGraph_Line.
Qed.

Lemma Director_construct_ignores_type_witness :
  Director_construct (Director_setBuilder (mkDirector (Some BarPtr)) LinePtr)
    "Bar" "(3,4)" demo_world =
  GraphFactory_createGraph mkGraphFactory "Line" "(3,4)" demo_world.
Proof.
  apply (Director_construct_ignores_type (mkDirector (Some BarPtr)) LinePtr
           mkGraphFactory "Bar" "(3,4)" demo_world).
  vm_compute. eexists. reflexivity.
Defined.

(** ** The proxy and the real diagram classes *)

(** X11: the proxy does not stand in for the real drawing transparently:
    in every world the line [DrawGraph::draw] writes differs from the line
    [Graph::draw] writes and from the line [Figure::draw] writes, so the
    output of a graph built through the factories is never that of a
    [Graph] drawn directly. *)
Theorem proxy_differs_from_real_draw (this : DrawGraph) (w : World) :
  ∃ wp wg wf',
    DrawGraph_draw this w = Some (tt, wp) ∧
    Graph_draw w = Some (tt, wg) ∧
    Figure_draw w = Some (tt, wf') ∧
    cout wp ≠ cout wg ∧ cout wp ≠ cout wf'.
Proof.
  eexists _, _, _. do 3 (split; [reflexivity|]). simpl.
  split; intros H; apply (inj (String.app (cout w))) in H; discriminate.
Qed.

Lemma no_diagram_filter tr :
  forallb (λ i, negb (is_diagram_call i)) tr = true →
  filter (λ i, is_diagram_call i = true) tr = [].
Proof.
  induction tr as [|i tr IH]; [done|]. simpl. intros H.
  apply andb_prop in H as [Hi Htr]. rewrite filter_cons.
  destruct (is_diagram_call i); [done|]. rewrite decide_False by done. auto.
Qed.

Lemma diagram_calls_direct_effect c w :
  filter (λ i, is_diagram_call i = true) (calls (direct_effect c w)) =
    filter (λ i, is_diagram_call i = true) (calls w) ++ direct_diagram_calls c.
Proof.
  destruct c as [c|m|m|m|m]; simpl.
  - destruct (calls_effect c w) as (tr & -> & Htr).
    rewrite filter_app, (no_diagram_filter tr Htr). done.
  - unfold after_bar_call. simpl. rewrite filter_app.
    by destruct m.
  - unfold after_line_call. simpl. rewrite filter_app.
    by destruct m.
  - by rewrite filter_app.
  - by rewrite filter_app.
Qed.

(** X12: in a mixed run the only bodies of [Graph] and [Figure] entered
    are the ones the client calls on its own objects, in the order the
    client calls them: no factory, builder or proxy method ever enters
    one. *)
Theorem only_the_client_calls_real_diagrams (cs : list DirectCall) :
  ∃ w, run_direct cs init = Some (tt, w) ∧
       filter (λ i, is_diagram_call i = true) (calls w) =
         cs ≫= direct_diagram_calls.
Proof.
  exists (direct_effects cs init). split; [apply run_direct_eq, wf_init|].
  assert (∀ w, filter (λ i, is_diagram_call i = true) (calls (direct_effects cs w)) =
               filter (λ i, is_diagram_call i = true) (calls w) ++
               (cs ≫= direct_diagram_calls)) as Hgen.
  { induction cs as [|c cs IH]; intros w; simpl.
    - by rewrite app_nil_r.
    - by rewrite IH, diagram_calls_direct_effect, <- (assoc_L (++)). }
  by rewrite Hgen.
Qed.

(** ** [main] *)

Lemma main_eq w : wf w → main w = Some (0%Z, effects demo_calls w).
Proof.
  intros Hwf. unfold main, bind.
  pose proof (run_eq demo_calls w Hwf) as Hrun.
  unfold demo_calls, run, exec, bind, ret in Hrun.
  repeat match type of Hrun with
         | context [match ?m with Some _ => _ | None => _ end] =>
             destruct m as [[[] ?]|]; [|discriminate]
         end.
  injection Hrun as ->. done.
Qed.

(** X13: [main] run in any world a mixed run can reach (in particular at
    process start) returns 0 and appends the same ten lines; afterwards
    the bar builder holds "(15,30)", the line builder holds "(10,20)" and
    the pool has a figure for "CircleColor" and for "SquareBW". *)
Theorem main_in_any_world (w : World) :
  reachable_direct w →
  ∃ w', main w = Some (0%Z, w') ∧
        cout w' = cout w +:+
          "Line calc at (10,20)" +:+ nl +:+
          "[Graph Proxy] Drawing graphical + textual stub" +:+ nl +:+
          "Drag Line at (10,20)" +:+ nl +:+
          "Bar calc at (15,30)" +:+ nl +:+
          "[Graph Proxy] Drawing graphical + textual stub" +:+ nl +:+
          "Drag Bar at (15,30)" +:+ nl +:+
          "Coordinates: (5,5)" +:+ nl +:+
          "[Colored Flyweight] Drawing colored figure of type: CircleColor" +:+ nl +:+
          "Coordinates: (2,3)" +:+ nl +:+
          "[B/W Flyweight] Drawing black and white figure of type: SquareBW" +:+ nl ∧
        bar_coord w' = "(15,30)" ∧ line_coord w' = "(10,20)" ∧
        is_Some (the_pool w' !! "CircleColor") ∧
        is_Some (the_pool w' !! "SquareBW").
Proof.
  intros Hw. apply reachable_direct_wf in Hw.
  exists (effects demo_calls w). split; [by apply main_eq|].
  split; [by rewrite cout_effects|].
  destruct (coords_effects demo_calls w) as [HB HL].
  unfold bar_coord, line_coord.
  destruct (bar_instance (effects demo_calls w)) as [b|];
    destruct (line_instance (effects demo_calls w)) as [l|];
    simpl in HB, HL; try discriminate.
  injection HB as HB. injection HL as HL. do 2 (split; [done|]).
  assert (the_pool (after_figure "CircleColor" "(5,5)"
            (effects [GetDiagram (mkDiagramFactory mkGraphFactory) "Graph" "Line" "(10,20)";
                      GetDiagram (mkDiagramFactory mkGraphFactory) "Graph" "Bar" "(15,30)"] w))
            !! "CircleColor" = Some (figure_ptr "CircleColor" _)) as Hc
    by apply the_pool_figure_ptr.
  split.
  - eexists. apply (pool_kept_effects
      [GetDiagram (mkDiagramFactory mkGraphFactory) "Figure" "SquareBW" "(2,3)"]).
    exact Hc.
  - eexists. apply (the_pool_figure_ptr "SquareBW" "(2,3)").
Qed.

Lemma main_in_any_world_witness :
  ∃ w', main demo_world = Some (0%Z, w') ∧
        cout w' = cout demo_world +:+
          "Line calc at (10,20)" +:+ nl +:+
          "[Graph Proxy] Drawing graphical + textual stub" +:+ nl +:+
          "Drag Line at (10,20)" +:+ nl +:+
          "Bar calc at (15,30)" +:+ nl +:+
          "[Graph Proxy] Drawing graphical + textual stub" +:+ nl +:+
          "Drag Bar at (15,30)" +:+ nl +:+
          "Coordinates: (5,5)" +:+ nl +:+
          "[Colored Flyweight] Drawing colored figure of type: CircleColor" +:+ nl +:+
          "Coordinates: (2,3)" +:+ nl +:+
          "[B/W Flyweight] Drawing black and white figure of type: SquareBW" +:+ nl ∧
        bar_coord w' = "(15,30)" ∧ line_coord w' = "(10,20)" ∧
        is_Some (the_pool w' !! "CircleColor") ∧
        is_Some (the_pool w' !! "SquareBW").
Proof.
  apply main_in_any_world. apply reachable_is_direct, reachable_demo.
Defined.

(** ** Factories of the client's own, and short keys *)

(** X14: sharing is per [FlyweightFactory], not per process: when a key is
    asked from one factory and then from another factory that has not seen
    it, the second call allocates again, so the two pointers differ
    although the two objects are equal. *)
Theorem separate_factories_do_not_share (this1 this2 : FlyweightFactory)
    (key : string) (w : World) :
  pool_ok (pool this1) (heap w) →
  pool this2 !! key = None →
  ∃ this1' a1 w1 this2' a2 w2,
    FlyweightFactory_getFigure this1 key w = Some ((this1', Some a1), w1) ∧
    FlyweightFactory_getFigure this2 key w1 = Some ((this2', Some a2), w2) ∧
    a1 ≠ a2 ∧
    is_Some (heap w2 !! a1) ∧ heap w2 !! a1 = heap w2 !! a2.
Proof.
  intros Hok H2.
  assert (∃ this1' a1 w1,
            FlyweightFactory_getFigure this1 key w = Some ((this1', Some a1), w1) ∧
            heap w1 !! a1 = Some (classify key))
    as (this1' & a1 & w1 & H1 & Ha1).
  { destruct (pool this1 !! key) as [p|] eqn:Hm.
    - destruct (Hok _ _ Hm) as (a & -> & Ha).
      exists this1, a, w. split; [by apply FlyweightFactory_getFigure_cached | done].
    - eexists _, _, _. split; [by apply FlyweightFactory_getFigure_fresh|].
      simpl. by rewrite lookup_app_r, Nat.sub_diag. }
  eexists this1', a1, w1, _, _, _. split; [done|].
  split; [by apply FlyweightFactory_getFigure_fresh|].
  pose proof (lookup_lt_Some _ _ _ Ha1) as Hlt. simpl.
  split; [lia|].
  rewrite (lookup_app_l_Some _ _ _ _ Ha1), lookup_app_r, Nat.sub_diag by done.
  split; [by eexists | done].
Qed.

Lemma separate_factories_do_not_share_witness :
  ∃ this1' a1 w1 this2' a2 w2,
    FlyweightFactory_getFigure (mkFlyweightFactory ∅) "CircleColor" init =
      Some ((this1', Some a1), w1) ∧
    FlyweightFactory_getFigure (mkFlyweightFactory ∅) "CircleColor" w1 =
      Some ((this2', Some a2), w2) ∧
    a1 ≠ a2 ∧
    is_Some (heap w2 !! a1) ∧ heap w2 !! a1 = heap w2 !! a2.
Proof.
  apply separate_factories_do_not_share.
  - intros k p H. vm_compute in H. discriminate.
  - reflexivity.
Defined.

Lemma length_append s t :
  String.length (s +:+ t) = String.length s + String.length t.
Proof.
  induction s as [|a s IH]; [done|]. rewrite append_cons. simpl. by rewrite IH.
Qed.

Lemma contains_length s pat : contains s pat → String.length pat ≤ String.length s.
Proof. intros (pre & post & ->). rewrite !length_append. lia. Qed.

(** X15: a key of fewer than five characters, the empty key included, is
    accepted like any other and always yields a black-and-white figure
    carrying that key. *)
Theorem short_keys_are_black_and_white (this : FlyweightFactory) (key : string)
    (w : World) :
  String.length key < 5 →
  pool_ok (pool this) (heap w) →
  ∃ this' a w',
    FlyweightFactory_getFigure this key w = Some ((this', Some a), w') ∧
    heap w' !! a = Some (BWFigure key).
Proof.
  intros Hlen Hok.
  assert (classify key = BWFigure key) as Hbw.
  { apply classify_bw. intros H. apply contains_length in H. simpl in H. lia. }
  destruct (pool this !! key) as [p|] eqn:Hm.
  - destruct (Hok _ _ Hm) as (a & -> & Ha).
    exists this, a, w. split; [by apply FlyweightFactory_getFigure_cached|].
    by rewrite <- Hbw.
  - eexists _, _, _. split; [by apply FlyweightFactory_getFigure_fresh|].
    simpl. by rewrite lookup_app_r, Nat.sub_diag, Hbw.
Qed.

Lemma short_keys_are_black_and_white_witness :
  ∃ this' a w',
    FlyweightFactory_getFigure (mkFlyweightFactory ∅) EmptyString init =
      Some ((this', Some a), w') ∧
    heap w' !! a = Some (BWFigure EmptyString).
Proof.
  apply short_keys_are_black_and_white.
  - vm_compute. lia.
  - intros k p H. vm_compute in H. discriminate.
Defined.
